(** * Simple Split Bill: the allocation and settlement engine of [app.py]

    A shallow embedding of the core logic of [src/app.py] (the functions
    between the "CORE LOGIC" and "UI FLOW" banners) and the properties of
    the specification that concern it.

    Conventions of the embedding.
    - A Python [float] is modelled twice.  The session as a whole (catalog,
      roster, ledger, settlement, the text of the e-mail and of the image)
      computes with exact rationals ([Q]): comparisons are the decidable
      comparisons of [Q], and binary rounding, overflow, infinities and NaN
      have no counterpart there.  The module [Doubles] embeds the
      allocation and settlement core once more over binary64 ([PrimFloat]),
      with the IEEE 754 operations that Python uses; what depends on a
      quantity that is not a number, on overflow, or on the outcome of the
      code's own comparisons is stated there.
    - A Python [dict] is an insertion-ordered association list whose keys
      are pairwise distinct ([Dict.wf]).
    - A Python exception is a value of [exn] carried by [result].
    - [st.session_state] is the record [state]; a function that writes to
      it takes the state and returns the new one. *)

From Stdlib Require Import QArith Qround Qabs Lqa ZArith Lia List String Ascii Bool
  DecimalString.
From Stdlib Require PrimFloat SpecFloat FloatOps FloatAxioms.
Import ListNotations.

Local Open Scope string_scope.
Local Open Scope Q_scope.

(** ** Exceptions *)

Inductive exn : Type :=
| KeyError (key : string)
| ValueError
| ZeroDivisionError.

Inductive result (A : Type) : Type :=
| Ok (a : A)
| Raise (e : exn).

Arguments Ok {A} a.
Arguments Raise {A} e.

Definition bind {A B : Type} (r : result A) (k : A -> result B) : result B :=
  match r with
  | Ok a => k a
  | Raise e => Raise e
  end.

Declare Scope result_scope.
Delimit Scope result_scope with result.
Notation "x <- r ;; k" := (bind r (fun x => k))
  (at level 100, r at next level, right associativity) : result_scope.
Local Open Scope result_scope.

Definition raises {A : Type} (r : result A) : Prop :=
  exists e, r = Raise e.

(** ** Python dictionaries *)

Module Dict.

Definition dict (V : Type) : Type := list (string * V).

Section Ops.
Context {V : Type}.

(** [d.get(k)] *)
Fixpoint get (d : dict V) (k : string) : option V :=
  match d with
  | [] => None
  | (k', v) :: rest => if String.eqb k k' then Some v else get rest k
  end.

(** [d.get(k, default)] *)
Definition get_default (d : dict V) (k : string) (default : V) : V :=
  match get d k with
  | Some v => v
  | None => default
  end.

(** [k in d] *)
Definition contains (d : dict V) (k : string) : bool :=
  match get d k with
  | Some _ => true
  | None => false
  end.

(** [d[k]] on a plain dict *)
Definition getitem (d : dict V) (k : string) : result V :=
  match get d k with
  | Some v => Ok v
  | None => Raise (KeyError k)
  end.

(** [d[k] = v]: an existing key keeps its position, a new key goes last. *)
Fixpoint set (d : dict V) (k : string) (v : V) : dict V :=
  match d with
  | [] => [(k, v)]
  | (k', v') :: rest =>
      if String.eqb k k' then (k', v) :: rest else (k', v') :: set rest k v
  end.

Definition keys (d : dict V) : list string := map fst d.
Definition values (d : dict V) : list V := map snd d.

(** keys of a dictionary are pairwise distinct *)
Definition wf (d : dict V) : Prop := NoDup (keys d).

End Ops.

End Dict.

Import Dict.

(** ** Numbers *)

Definition Qlt_bool (x y : Q) : bool := negb (Qle_bool y x).

(** truth value of a float: [bool(x)] is [x != 0] *)
Definition truthy (x : Q) : bool := negb (Qeq_bool x 0).

(** truth value of a str: the empty string is false *)
Definition truthy_str (s : string) : bool :=
  match s with
  | EmptyString => false
  | String _ _ => true
  end.

(** [x / y] *)
Definition pydiv (x y : Q) : result Q :=
  if Qeq_bool y 0 then Raise ZeroDivisionError else Ok (x / y).

(** [sum(xs)]: starts from 0 and adds from the left *)
Definition pysum (xs : list Q) : Q := fold_left Qplus xs 0.

(** [any(xs)] *)
Definition pyany (xs : list Q) : bool := existsb truthy xs.

(** nearest integer, ties to the even one *)
Definition round_half_even (x : Q) : Z :=
  let f := Qfloor x in
  match Qcompare (x - inject_Z f) (1 # 2) with
  | Lt => f
  | Gt => (f + 1)%Z
  | Eq => if Z.even f then f else (f + 1)%Z
  end.

(** [round(x, 2)] *)
Definition round2 (x : Q) : Q := inject_Z (round_half_even (x * 100)) / 100.

(** ** Strings *)

Definition newline : string := String "010"%char EmptyString.

(** ASCII white space, as [str.isspace] has it: 9-13, 28-31 and 32.  White
    space outside ASCII is not recognised. *)
Definition is_space (c : ascii) : bool :=
  let n := nat_of_ascii c in
  (Nat.eqb n 32 || (Nat.leb 9 n && Nat.leb n 13)
   || (Nat.leb 28 n && Nat.leb n 31))%bool.

Fixpoint drop_while {A : Type} (f : A -> bool) (l : list A) : list A :=
  match l with
  | [] => []
  | a :: rest => if f a then drop_while f rest else l
  end.

Definition rstrip_chars (f : ascii -> bool) (l : list ascii) : list ascii :=
  rev (drop_while f (rev l)).

(** [s.strip()] *)
Definition strip (s : string) : string :=
  string_of_list_ascii
    (rstrip_chars is_space (drop_while is_space (list_ascii_of_string s))).

(** [s.rstrip(c)] for a single character [c] *)
Definition rstrip_char (c : ascii) (s : string) : string :=
  string_of_list_ascii (rstrip_chars (Ascii.eqb c) (list_ascii_of_string s)).

(** [s.endswith(suffix)] *)
Definition endswith (s suffix : string) : bool :=
  let n := String.length s in
  let m := String.length suffix in
  (Nat.leb m n && String.eqb (substring (n - m) m s) suffix)%bool.

(** [c in s] for a single character [c] *)
Definition has_char (c : ascii) (s : string) : bool :=
  existsb (Ascii.eqb c) (list_ascii_of_string s).

(** [sep.join(lines)] *)
Definition join (sep : string) (lines : list string) : string :=
  String.concat sep lines.

(** *** Reading a float: [float(s)] for a string [s]

    Accepted: optional surrounding white space, an optional sign, decimal
    digits (single underscores between digits allowed) with an optional
    fraction, an optional exponent.  The value is the exact decimal.  The
    literals for infinities and NaN have no rational value and are rejected
    here, as are digits outside ASCII; [Doubles.pyfloat] below reads the
    same texts, and "nan" and "inf", into binary64. *)

Definition digit_of (c : ascii) : option Z :=
  let n := nat_of_ascii c in
  if (Nat.leb 48 n && Nat.leb n 57)%bool then Some (Z.of_nat (n - 48)) else None.

(** is the character a digit *)
Definition is_digit (c : ascii) : bool :=
  match digit_of c with
  | Some _ => true
  | None => false
  end.

Fixpoint take_digits (l : list ascii) : list Z * list ascii :=
  match l with
  | [] => ([], [])
  | c :: rest =>
      match digit_of c with
      | Some d =>
          (* an underscore may stand between two digits *)
          let rest' :=
            match rest with
            | "_"%char :: after =>
                match after with
                | c2 :: _ => if is_digit c2 then after else rest
                | [] => rest
                end
            | _ => rest
            end in
          let (ds, tl) := take_digits rest' in (d :: ds, tl)
      | None => ([], l)
      end
  end.

Definition digits_value (ds : list Z) : Z :=
  fold_left (fun acc d => (acc * 10 + d)%Z) ds 0%Z.

Definition take_sign (l : list ascii) : bool * list ascii :=
  match l with
  | "-"%char :: rest => (true, rest)
  | "+"%char :: rest => (false, rest)
  | _ => (false, l)
  end.

Definition parse_exponent (l : list ascii) : option Z :=
  match l with
  | [] => Some 0%Z
  | c :: rest =>
      if (Ascii.eqb c "e" || Ascii.eqb c "E")%bool then
        let (neg, r1) := take_sign rest in
        match take_digits r1 with
        | (d :: ds, []) =>
            let e := digits_value (d :: ds) in
            Some (if neg then (- e)%Z else e)
        | _ => None
        end
      else None
  end.

Definition parse_unsigned (l : list ascii) : option Q :=
  let (ip, r1) := take_digits l in
  let (fp, r2) :=
    match r1 with
    | "."%char :: r => take_digits r
    | _ => ([], r1)
    end in
  match (ip ++ fp)%list with
  | [] => None
  | ds =>
      match parse_exponent r2 with
      | Some e =>
          Some (inject_Z (digits_value ds)
                * Qpower 10 (e - Z.of_nat (List.length fp)))
      | None => None
      end
  end.

Definition float_of_string (s : string) : option Q :=
  let body := rstrip_chars is_space
                (drop_while is_space (list_ascii_of_string s)) in
  let (neg, r) := take_sign body in
  match parse_unsigned r with
  | Some x => Some (if neg then - x else x)
  | None => None
  end.

(** An argument of a quantity or price parameter: the form fields hand over
    floats, other callers may hand over text. *)
Inductive pyval : Type :=
| PyFloat (x : Q)
| PyStr (s : string).

(** [float(v)] *)
Definition pyfloat (v : pyval) : result Q :=
  match v with
  | PyFloat x => Ok x
  | PyStr s =>
      match float_of_string s with
      | Some x => Ok x
      | None => Raise ValueError
      end
  end.

(** *** Writing a number: [fmt_num] *)

Definition decimal_of_Z (n : Z) : string :=
  DecimalString.NilZero.string_of_uint (N.to_uint (Z.to_N n)).

(** thousands separators, on the reversed digits *)
Fixpoint group_rev (k : nat) (l : list ascii) : list ascii :=
  match l with
  | [] => []
  | c :: rest =>
      match k with
      | O => ","%char :: c :: group_rev 2 rest
      | S k' => c :: group_rev k' rest
      end
  end.

Definition with_commas (digits : string) : string :=
  string_of_list_ascii (rev (group_rev 3 (rev (list_ascii_of_string digits)))).

Definition two_digits (n : Z) : string :=
  decimal_of_Z (n / 10) ++ decimal_of_Z (n mod 10).

(** [f"{v:,.2f}"] *)
Definition format_comma_2f (v : Q) : string :=
  let cents := Z.abs (round_half_even (v * 100)) in
  (if Qlt_bool v 0 then "-" else EmptyString)
  ++ with_commas (decimal_of_Z (cents / 100)) ++ "." ++ two_digits (cents mod 100).

Definition fmt_num (v : Q) : string :=
  let s := format_comma_2f v in
  if endswith s ".00" then substring 0 (String.length s - 3) s
  else if has_char "." s then rstrip_char "." (rstrip_char "0" s)
  else s.

(** ** Session state *)

Record item_data : Type := { qty : Q; total_price : Q }.

Record person_data : Type := { email : string }.

Record account : Type := { label : string; detail : string }.

Record initiator_data : Type :=
  { initiator_name : string; initiator_email : string; accounts : list account }.

Record restaurant_data : Type :=
  { name : string; address : string; phone : string }.

(** [shares[person][item] = qty]; both levels are [defaultdict]s. *)
Definition ledger : Type := dict (dict Q).

Record state : Type :=
  { initiator : initiator_data;
    items : dict item_data;
    people : dict person_data;
    shares : ledger;
    tax : Q;
    restaurant : restaurant_data }.

Definition with_initiator (st : state) (i : initiator_data) : state :=
  {| initiator := i; items := items st; people := people st;
     shares := shares st; tax := tax st; restaurant := restaurant st |}.

Definition with_items (st : state) (d : dict item_data) : state :=
  {| initiator := initiator st; items := d; people := people st;
     shares := shares st; tax := tax st; restaurant := restaurant st |}.

Definition with_people (st : state) (d : dict person_data) : state :=
  {| initiator := initiator st; items := items st; people := d;
     shares := shares st; tax := tax st; restaurant := restaurant st |}.

Definition with_shares (st : state) (sh : ledger) : state :=
  {| initiator := initiator st; items := items st; people := people st;
     shares := sh; tax := tax st; restaurant := restaurant st |}.

Definition with_tax (st : state) (t : Q) : state :=
  {| initiator := initiator st; items := items st; people := people st;
     shares := shares st; tax := t; restaurant := restaurant st |}.

(** the state the script starts from (its "STATE" block) *)
Definition initial_state : state :=
  {| initiator := {| initiator_name := EmptyString;
                     initiator_email := EmptyString;
                     accounts := [] |};
     items := [];
     people := [];
     shares := [];
     tax := 0;
     restaurant := {| name := EmptyString; address := EmptyString;
                      phone := EmptyString |} |}.

(** [shares[person]] on the outer [defaultdict]: a missing row is created
    empty, stored, and returned. *)
Definition shares_getitem (sh : ledger) (person : string) : dict Q * ledger :=
  match get sh person with
  | Some row => (row, sh)
  | None => ([], set sh person [])
  end.

(** The row that [shares[person]] evaluates to.  The read-only functions
    below use it; the empty row such a read may leave in the store holds no
    quantity and changes no value computed here. *)
Definition row_of (sh : ledger) (person : string) : dict Q :=
  fst (shares_getitem sh person).

(** the store effect of evaluating [shares[person]] *)
Definition touch (st : state) (person : string) : state :=
  with_shares st (snd (shares_getitem (shares st) person)).

(** [shares[person][item] = q] *)
Definition store_share (st : state) (person item : string) (q : Q) : state :=
  let (row, sh) := shares_getitem (shares st) person in
  with_shares st (set sh person (set row item q)).

(** ** Messages

    Each constructor stands for one message text of the source; the values
    its f-string interpolates are the constructor's arguments. *)
Inductive message : Type :=
| SelectPersonItem                               (* Select person & item. *)
| ItemNotFound (item : string)                   (* Item '{item}' not found. *)
| QtyMustBePositive                              (* Qty must be > 0. *)
| NotEnoughRemaining (item : string) (remaining : Q)
    (* Not enough '{item}' left. Remaining: {remaining_qty(item)} *)
| QtyMustBeNumber                                (* Qty must be a number. *)
| QtyMustBeNonnegative                           (* Qty must be >= 0. *)
| NotEnoughAvailable (item : string) (available : string)
    (* Not enough '{item}' left. Available: {fmt_num(available)} *)
| ItemNameRequired                               (* Item name is required. *)
| QtyPriceMustBeNumbers              (* Qty and Total Price must be numbers. *)
| ItemUpdated (item : string)                    (* Item '{name}' updated. *)
| ItemAdded (item : string).                     (* Item '{name}' added. *)

(** The error kinds of the specification, by message. *)
Inductive error_kind : Type := ValidationError | NotFoundError | CapacityError.

Definition kind_of (m : message) : option error_kind :=
  match m with
  | SelectPersonItem | QtyMustBePositive | QtyMustBeNumber
  | QtyMustBeNonnegative | ItemNameRequired | QtyPriceMustBeNumbers =>
      Some ValidationError
  | ItemNotFound _ => Some NotFoundError
  | NotEnoughRemaining _ _ | NotEnoughAvailable _ _ => Some CapacityError
  | ItemUpdated _ | ItemAdded _ => None
  end.

(** ** Core logic *)

Definition add_payment_account (st : state) (label0 detail0 : string) : state :=
  let label1 := strip label0 in
  let detail1 := strip detail0 in
  if (truthy_str label1 && truthy_str detail1)%bool then
    with_initiator st
      {| initiator_name := initiator_name (initiator st);
         initiator_email := initiator_email (initiator st);
         accounts := (accounts (initiator st)
                      ++ [{| label := label1; detail := detail1 |}])%list |}
  else st.

Definition add_item (st : state) (name0 : string) (qty0 total_price0 : pyval)
  : (bool * message) * state :=
  if negb (truthy_str name0) then ((false, ItemNameRequired), st)
  else
    match (qty_f <- pyfloat qty0 ;;
           price_f <- pyfloat total_price0 ;;
           Ok (qty_f, price_f)) with
    | Raise _ => ((false, QtyPriceMustBeNumbers), st)
    | Ok (qty_f, price_f) =>
        let data := {| qty := qty_f; total_price := price_f |} in
        if contains (items st) name0 then
          ((true, ItemUpdated name0), with_items st (set (items st) name0 data))
        else
          ((true, ItemAdded name0), with_items st (set (items st) name0 data))
    end.

Definition add_person (st : state) (name0 email0 : string) : state :=
  if negb (truthy_str name0) then st
  else
    touch (with_people st (set (people st) name0 {| email := strip email0 |}))
          name0.

Definition unit_price (st : state) (item : string) : result Q :=
  data <- getitem (items st) item ;;
  if truthy (qty data) then pydiv (total_price data) (qty data) else Ok 0.

(** the sum over the ledger's rows that [remaining_qty] calls [used] *)
Definition used_qty (st : state) (item : string) : Q :=
  pysum (map (fun p => get_default (row_of (shares st) p) item 0)
             (keys (shares st))).

Definition remaining_qty (st : state) (item : string) : result Q :=
  let used := used_qty st item in
  data <- getitem (items st) item ;;
  Ok (qty data - used).

(** [assign_share] either raises (the state is then as it was: nothing is
    written before the last statement) or returns [None] or a message. *)
Definition assign_share (st : state) (person item : string) (qty0 : pyval)
  : result (option message) * state :=
  if (negb (truthy_str person) || negb (truthy_str item))%bool then
    (Ok (Some SelectPersonItem), st)
  else if negb (contains (items st) item) then
    (Ok (Some (ItemNotFound item)), st)
  else
    match pyfloat qty0 with
    | Raise e => (Raise e, st)
    | Ok q =>
        if Qle_bool q 0 then (Ok (Some QtyMustBePositive), st)
        else
          match remaining_qty st item with
          | Raise e => (Raise e, st)
          | Ok remaining =>
              if Qlt_bool remaining q then
                (Ok (Some (NotEnoughRemaining item remaining)), st)
              else
                (* shares[person][item] += qty *)
                let (row, sh1) := shares_getitem (shares st) person in
                let st1 := with_shares st sh1 in
                (Ok None, store_share st1 person item (get_default row item 0 + q))
          end
    end.

Definition set_share (st : state) (person item : string) (qty0 : pyval)
  : result (option message) * state :=
  if (negb (truthy_str person) || negb (truthy_str item))%bool then
    (Ok (Some SelectPersonItem), st)
  else if negb (contains (items st) item) then
    (Ok (Some (ItemNotFound item)), st)
  else
    match pyfloat qty0 with
    | Raise _ => (Ok (Some QtyMustBeNumber), st)
    | Ok qty_f =>
        if Qlt_bool qty_f 0 then (Ok (Some QtyMustBeNonnegative), st)
        else
          (* current = shares[person].get(item, 0.0) *)
          let (row, sh1) := shares_getitem (shares st) person in
          let st1 := with_shares st sh1 in
          let current := get_default row item 0 in
          match remaining_qty st1 item with
          | Raise e => (Raise e, st1)
          | Ok remaining =>
              let available := remaining + current in
              if Qlt_bool available qty_f then
                (Ok (Some (NotEnoughAvailable item (fmt_num available))), st1)
              else (Ok None, store_share st1 person item qty_f)
          end
    end.

Fixpoint person_total_loop (st : state) (entries : list (string * Q)) (total : Q)
  : result Q :=
  match entries with
  | [] => Ok total
  | (item, q) :: rest =>
      up <- unit_price st item ;;
      person_total_loop st rest (total + q * up)
  end.

Definition person_total (st : state) (person : string) : result Q :=
  person_total_loop st (row_of (shares st) person) 0.

Record breakdown_line : Type :=
  { line_item : string; line_qty : Q; line_unit : Q; line_subtotal : Q }.

Fixpoint person_breakdown_loop (st : state) (entries : list (string * Q))
  : result (list breakdown_line) :=
  match entries with
  | [] => Ok []
  | (item, q) :: rest =>
      if Qle_bool q 0 then person_breakdown_loop st rest
      else
        up <- unit_price st item ;;
        lines <- person_breakdown_loop st rest ;;
        Ok ({| line_item := item; line_qty := q; line_unit := round2 up;
               line_subtotal := round2 (q * up) |} :: lines)
  end.

Definition person_breakdown (st : state) (person : string)
  : result (list breakdown_line) :=
  person_breakdown_loop st (row_of (shares st) person).

(** does the person hold a share: [any(shares[p].values())] *)
Definition has_share (st : state) (p : string) : bool :=
  pyany (values (row_of (shares st) p)).

(** the conditional expression
    [(sub / total_sub * tax_total) if total_sub > 0 else 0.0] *)
Definition tax_share_expr (sub total_sub tax_total : Q) : result Q :=
  if Qlt_bool 0 total_sub then
    r <- pydiv sub total_sub ;; Ok (r * tax_total)
  else Ok 0.

(** the dict comprehension of [all_totals] *)
Fixpoint subtotals_loop (st : state) (ps : list string) (acc : dict Q)
  : result (dict Q) :=
  match ps with
  | [] => Ok acc
  | p :: rest =>
      if has_share st p then
        t <- person_total st p ;;
        subtotals_loop st rest (set acc p (round2 t))
      else subtotals_loop st rest acc
  end.

Definition subtotals (st : state) : result (dict Q) :=
  subtotals_loop st (keys (people st)) [].

(** the [for p, sub in subtotals.items()] loop of [all_totals] *)
Fixpoint totals_loop (total_sub tax_total : Q) (entries : list (string * Q))
  (totals : dict Q) : result (dict Q) :=
  match entries with
  | [] => Ok totals
  | (p, sub) :: rest =>
      tax_share <- tax_share_expr sub total_sub tax_total ;;
      totals_loop total_sub tax_total rest (set totals p (round2 (sub + tax_share)))
  end.

Definition all_totals (st : state) : result (dict Q) :=
  subs <- subtotals st ;;
  let total_sub := pysum (values subs) in
  let tax_total := tax st in
  totals_loop total_sub tax_total subs [].

(** The value the local [tax_share] of [all_totals] takes in the iteration
    for [p]; [None] when the loop has no iteration for [p]. *)
Definition all_totals_tax_share (st : state) (p : string) : result (option Q) :=
  subs <- subtotals st ;;
  let total_sub := pysum (values subs) in
  let tax_total := tax st in
  match get subs p with
  | None => Ok None
  | Some sub => ts <- tax_share_expr sub total_sub tax_total ;; Ok (Some ts)
  end.

Definition accounts_text (st : state) : string :=
  match accounts (initiator st) with
  | [] => "Please pay to the initiator (account details to be provided)."
  | accs =>
      join newline
        ("Please pay to one of these accounts:"
         :: map (fun a => "- " ++ label a ++ ": " ++ detail a) accs)
  end.

(** the restaurant header lines of [build_email_body] *)
Definition restaurant_lines (st : state) : list string :=
  let rest := restaurant st in
  ((if truthy_str (name rest) then [name rest] else [])
   ++ (if truthy_str (address rest) then [address rest] else [])
   ++ (if truthy_str (phone rest) then [("Ph: " ++ phone rest)%string] else []))%list.

Fixpoint email_item_lines (st : state) (entries : list (string * Q))
  : result (list string) :=
  match entries with
  | [] => Ok []
  | (item, q) :: rest =>
      if Qlt_bool 0 q then
        up <- unit_price st item ;;
        let price := q * up in
        lines <- email_item_lines st rest ;;
        Ok (("- " ++ item ++ ": " ++ fmt_num q ++ " x " ++ fmt_num up
             ++ " = " ++ fmt_num price) :: lines)
      else email_item_lines st rest
  end.

(** the generator summed into [total_all] by [build_email_body] *)
Fixpoint included_subtotals (st : state) (ps : list string) : result (list Q) :=
  match ps with
  | [] => Ok []
  | p :: rest =>
      if has_share st p then
        t <- person_total st p ;;
        l <- included_subtotals st rest ;;
        Ok (round2 t :: l)
      else included_subtotals st rest
  end.

(** the locals of the "Tax split" block of [build_email_body] *)
Record email_figures : Type :=
  { subtotal : Q; total_all : Q; tax_share : Q; total_incl_tax : Q }.

Definition email_tax_split (st : state) (person : string) : result email_figures :=
  t <- person_total st person ;;
  let subtotal0 := round2 t in
  l <- included_subtotals st (keys (people st)) ;;
  let total_all0 := pysum l in
  let tax_total := tax st in
  tax_share0 <- tax_share_expr subtotal0 total_all0 tax_total ;;
  Ok {| subtotal := subtotal0; total_all := total_all0;
        tax_share := tax_share0; total_incl_tax := subtotal0 + tax_share0 |}.

Definition build_email_body (st : state) (person : string) : result string :=
  _ <- person_total st person ;;
  let lines :=
    (restaurant_lines st
     ++ [ ("Hi " ++ person ++ ",")%string; EmptyString;
          "Here is your split bill summary:"; EmptyString ])%list in
  item_lines <- email_item_lines st (row_of (shares st) person) ;;
  fig <- email_tax_split st person ;;
  Ok (join newline
        (lines ++ item_lines
         ++ [ EmptyString;
              ("Subtotal: " ++ fmt_num (subtotal fig))%string;
              ("Tax (your share): " ++ fmt_num (tax_share fig))%string;
              ("Total you should pay: " ++ fmt_num (total_incl_tax fig))%string;
              EmptyString;
              accounts_text st;
              EmptyString;
              "Thank you!" ])%list).

(** ** Valid states and the notions of the specification *)

(** floating-point tolerance of the conservation invariant *)
Definition epsilon : Q := 1 # 1000000000.

(** the sum of [f row] over the rows of the ledger *)
Definition row_sum (f : dict Q -> Q) (sh : ledger) : Q :=
  pysum (map (fun e : string * dict Q => f (snd e)) sh).

(** [sum(assigned[*][item])]: the quantities of [item] over all rows *)
Definition total_assigned (st : state) (item : string) : Q :=
  pysum (map (fun e : string * dict Q => get_default (snd e) item 0) (shares st)).

Definition ledger_wf (sh : ledger) : Prop :=
  wf sh /\ forall p row, get sh p = Some row -> wf row.

(** every allocation names an item of the catalog *)
Definition rows_in_catalog (st : state) : Prop :=
  forall p row item,
    get (shares st) p = Some row -> contains row item = true ->
    contains (items st) item = true.

Definition shares_nonneg (st : state) : Prop :=
  forall p row item q,
    get (shares st) p = Some row -> In (item, q) row -> 0 <= q.

Definition conserved (st : state) : Prop :=
  forall item data,
    get (items st) item = Some data ->
    total_assigned st item <= qty data + epsilon.

Record valid_state (st : state) : Prop :=
  { valid_items : wf (items st);
    valid_people : wf (people st);
    valid_ledger : ledger_wf (shares st);
    valid_rows : rows_in_catalog st;
    valid_nonneg : shares_nonneg st;
    valid_conserved : conserved st }.

(** ** Settlement, as the specification words it *)

(** a person's subtotal as a number (0 where [person_total] raises) *)
Definition subtotal_of (st : state) (p : string) : Q :=
  match person_total st p with
  | Ok t => t
  | Raise _ => 0
  end.

(** the included participants: those of the roster that hold some share *)
Definition included (st : state) : list string :=
  filter (has_share st) (keys (people st)).

Definition is_included (st : state) (p : string) : bool :=
  (existsb (String.eqb p) (keys (people st)) && has_share st p)%bool.

(** [totalSub]: the sum of the rounded subtotals of the included participants *)
Definition spec_total_sub (st : state) : Q :=
  pysum (map (fun p => round2 (subtotal_of st p)) (included st)).

(** the tax distribution rule *)
Definition tax_share_value (sub total_sub tax_total : Q) : Q :=
  if Qlt_bool 0 total_sub then sub / total_sub * tax_total else 0.

(** [shareOf(participant, item)], 0 where nothing is assigned *)
Definition share_of (st : state) (p item : string) : Q :=
  get_default (row_of (shares st) p) item 0.

(** the total assigned quantity of a participant, over all items *)
Definition assigned_total (st : state) (p : string) : Q :=
  pysum (values (row_of (shares st) p)).

(** one step of the dict comprehension of [all_totals], as a pure function *)
Definition subtotal_step (st : state) (acc : dict Q) (p : string) : dict Q :=
  if has_share st p then set acc p (round2 (subtotal_of st p)) else acc.

(** one step of the loop over [subtotals.items()], as a pure function *)
Definition total_step (total_sub tax_total : Q) (acc : dict Q) (e : string * Q)
  : dict Q :=
  set acc (fst e) (round2 (snd e + tax_share_value (snd e) total_sub tax_total)).

(** ** Scenarios *)

(** one item "Pizza" of quantity 2, participants "A" and "B" *)
Definition pizza_state : state :=
  add_person
    (add_person
       (snd (add_item initial_state "Pizza" (PyFloat 2) (PyFloat 20)))
       "A" EmptyString)
    "B" EmptyString.

(** Burger and Fries, Ann takes the Burger, Bo the Fries, tax 1500 *)
Definition bill_state : state :=
  let st1 := snd (add_item initial_state "Burger" (PyFloat 1) (PyFloat 10000)) in
  let st2 := snd (add_item st1 "Fries" (PyFloat 1) (PyFloat 5000)) in
  let st3 := add_person (add_person st2 "Ann" EmptyString) "Bo" EmptyString in
  let st4 := snd (set_share st3 "Ann" "Burger" (PyFloat 1)) in
  let st5 := snd (set_share st4 "Bo" "Fries" (PyFloat 1)) in
  with_tax st5 1500.

(** three teas at 1 each, Ann takes one and Bo two, tax 1 *)
Definition tea_state : state :=
  let st1 := snd (add_item initial_state "Tea" (PyFloat 3) (PyFloat 3)) in
  let st2 := add_person (add_person st1 "Ann" EmptyString) "Bo" EmptyString in
  let st3 := snd (set_share st2 "Ann" "Tea" (PyFloat 1)) in
  let st4 := snd (set_share st3 "Bo" "Tea" (PyFloat 2)) in
  with_tax st4 1.

(** a catalog with one item of quantity 0 *)
Definition water_state : state :=
  snd (add_item initial_state "Water" (PyFloat 0) (PyFloat 0)).

(** ** The rest of the session *)

(** the text lines of [build_bill_image]; the drawing itself is left to the
    imaging library *)
Fixpoint image_item_lines (st : state) (entries : list (string * Q))
  : result (list string) :=
  match entries with
  | [] => Ok []
  | (item, q) :: rest =>
      if Qle_bool q 0 then image_item_lines st rest
      else
        up <- unit_price st item ;;
        lines <- image_item_lines st rest ;;
        Ok (("    * " ++ item ++ ": " ++ fmt_num q ++ " x " ++ fmt_num up
             ++ " = " ++ fmt_num (q * up)) :: lines)
  end.

Fixpoint image_person_lines (st : state) (totals : list (string * Q))
  : result (list string) :=
  match totals with
  | [] => Ok []
  | (person, total) :: rest =>
      let mail := match get (people st) person with
                  | Some d => email d
                  | None => EmptyString
                  end in
      let header := if truthy_str mail
                    then person ++ " (" ++ mail ++ ")" else person in
      item_lines <- image_item_lines st (row_of (shares st) person) ;;
      lines <- image_person_lines st rest ;;
      Ok ((("- " ++ header ++ ": " ++ fmt_num total)%string :: item_lines)
          ++ lines)%list
  end.

Definition bill_image_lines (st : state) (totals : dict Q) : result (list string) :=
  let ini := initiator st in
  let head :=
    (["Split Bill Summary"]
     ++ restaurant_lines st
     ++ (if (truthy_str (initiator_name ini) || truthy_str (initiator_email ini))%bool
         then [strip ("Initiator: " ++ initiator_name ini ++ " ("
                      ++ initiator_email ini ++ ")")%string]
         else [])
     ++ (match accounts ini with
         | [] => []
         | accs =>
             EmptyString :: "Payment Accounts:"
             :: map (fun a => ("- " ++ label a ++ ": " ++ detail a)%string) accs
         end)
     ++ [EmptyString; EmptyString; "Details per person:"])%list in
  person_lines <- image_person_lines st totals ;;
  Ok (head ++ person_lines)%list.

(** the height of the image, in pixels *)
Definition bill_image_height (lines : list string) : Z :=
  (30 * 2 + 32 * Z.of_nat (List.length lines))%Z.

(** the "Update ...'s assignments" button: one [set_share] per catalog item,
    with the value of the item's input field; the refusals are collected *)
Fixpoint update_loop (st : state) (person : string) (newq : string -> Q)
  (item_keys : list string) (errs : list (string * message))
  : result (list (string * message)) * state :=
  match item_keys with
  | [] => (Ok errs, st)
  | item :: rest =>
      match set_share st person item (PyFloat (newq item)) with
      | (Raise e, st1) => (Raise e, st1)
      | (Ok (Some err), st1) =>
          update_loop st1 person newq rest (errs ++ [(item, err)])%list
      | (Ok None, st1) => update_loop st1 person newq rest errs
      end
  end.

Definition update_assignments (st : state) (person : string) (newq : string -> Q)
  : result (list (string * message)) * state :=
  update_loop st person newq (keys (items st)) [].

(** the "Reset All Data" button *)
Definition reset (st : state) : state :=
  {| initiator := {| initiator_name := EmptyString;
                     initiator_email := EmptyString;
                     accounts := [] |};
     items := [];
     people := [];
     shares := [];
     tax := tax st;
     restaurant := restaurant st |}.

(** what a user can do to the session *)
Inductive action : Type :=
| AddAccount (label0 detail0 : string)
| AddItem (name0 : string) (qty0 total_price0 : pyval)
| AddPerson (name0 email0 : string)
| Assign (person item : string) (qty0 : pyval)
| Update (person : string) (newq : string -> Q)
| SetTax (amount : Q)
| Reset.

Definition apply_action (st : state) (a : action) : state :=
  match a with
  | AddAccount l d => add_payment_account st l d
  | AddItem n q p => snd (add_item st n q p)
  | AddPerson n e => add_person st n e
  | Assign person item q => snd (assign_share st person item q)
  | Update person newq => snd (update_assignments st person newq)
  | SetTax t => with_tax st t
  | Reset => reset st
  end.

Definition run_actions (st : state) (actions : list action) : state :=
  fold_left apply_action actions st.

(** the structure every session state has: dictionaries with distinct keys,
    allocations that name catalog items, no negative share *)
Record well_formed (st : state) : Prop :=
  { wfd_items : wf (items st);
    wfd_people : wf (people st);
    wfd_ledger : ledger_wf (shares st);
    wfd_rows : rows_in_catalog st;
    wfd_nonneg : shares_nonneg st }.

(** an item of quantity 2 of which 3 are assigned: what lowering a quantity
    with [add_item] leaves behind *)
Definition oversold_state : state :=
  let st1 := snd (add_item initial_state "Pizza" (PyFloat 3) (PyFloat 30)) in
  let st2 := add_person st1 "A" EmptyString in
  let st3 := snd (set_share st2 "A" "Pizza" (PyFloat 3)) in
  snd (add_item st3 "Pizza" (PyFloat 2) (PyFloat 20)).

(** a state no session produces: "A" holds a share of "Soup", which is
    not in the catalog *)
Definition stray_state : state :=
  with_shares (add_person initial_state "A" EmptyString) [("A", [("Soup", 1)])].

(** the unit price as a number (0 where [unit_price] raises) *)
Definition price_of (st : state) (item : string) : Q :=
  match unit_price st item with
  | Ok up => up
  | Raise _ => 0
  end.

(** ** The allocation and settlement core over binary64

    The definitions above compute with exact rationals.  A Python [float]
    is a binary64 number: it rounds, it overflows to an infinity, and it has
    NaN, which every comparison answers with false.  The module below embeds
    the same functions of the source over Rocq's primitive binary64 floats,
    whose operations are the IEEE 754 ones that Python uses.  Facts that
    depend on NaN, on overflow or on the outcome of the code's comparisons
    are stated over it. *)

Module Doubles.

Import PrimFloat SpecFloat FloatOps.

(** the exact value of a finite float (0 for the others) *)
Definition Q_of_float (x : float) : Q :=
  match Prim2SF x with
  | S754_finite s m e =>
      let v := inject_Z (Zpos m) * Qpower 2 e in
      if s then - v else v
  | _ => 0
  end.

(** the binary64 number nearest to a rational, ties to even, infinite on
    overflow: what reading a decimal text gives *)
Definition float_of_Q (q : Q) : float :=
  match Qnum q with
  | Z0 => zero
  | Zpos n =>
      SF2Prim (SFdiv prec emax (S754_finite false n 0)
                     (S754_finite false (Qden q) 0))
  | Zneg n =>
      SF2Prim (SFdiv prec emax (S754_finite true n 0)
                     (S754_finite false (Qden q) 0))
  end.

Definition lower (c : ascii) : ascii :=
  let n := nat_of_ascii c in
  if (Nat.leb 65 n && Nat.leb n 90)%bool then ascii_of_nat (n + 32) else c.

(** [float(s)] for a string [s]: "nan", "inf" and "infinity" in any case,
    or a decimal numeral, each with an optional sign and surrounding white
    space *)
Definition float_of_string (s : string) : option float :=
  let body := rstrip_chars is_space
                (drop_while is_space (list_ascii_of_string s)) in
  let (neg, r) := take_sign body in
  let word := string_of_list_ascii (map lower r) in
  let magnitude :=
    if String.eqb word "nan" then Some nan
    else if (String.eqb word "inf" || String.eqb word "infinity")%bool
         then Some infinity
         else match parse_unsigned r with
              | Some q => Some (float_of_Q q)
              | None => None
              end in
  match magnitude with
  | Some x => Some (if neg then opp x else x)
  | None => None
  end.

Inductive pyval : Type :=
| PyFloat (x : float)
| PyStr (s : string).

(** [float(v)] *)
Definition pyfloat (v : pyval) : result float :=
  match v with
  | PyFloat x => Ok x
  | PyStr s =>
      match float_of_string s with
      | Some x => Ok x
      | None => Raise ValueError
      end
  end.

(** truth value of a float: [x != 0]; NaN is true *)
Definition truthy (x : float) : bool := negb (eqb x zero).

(** [x / y] *)
Definition pydiv (x y : float) : result float :=
  if eqb y zero then Raise ZeroDivisionError else Ok (div x y).

(** [sum(xs)]: starts from 0 and adds from the left.  CPython 3.12 and
    later also carry a correction for the rounding error of the additions;
    it changes no sum in which an addend is NaN or infinite. *)
Definition pysum (xs : list float) : float := fold_left add xs zero.

(** [any(xs)] *)
Definition pyany (xs : list float) : bool := existsb truthy xs.

(** [round(x, 2)]: NaN and the infinities round to themselves; a finite
    float rounds, on its exact value and with ties to even, to a decimal
    with 2 places, of which the nearest float is returned; a zero result
    keeps the sign of [x] *)
Definition round2 (x : float) : float :=
  if is_finite x then
    let n := round_half_even (Q_of_float x * 100) in
    if Z.eqb n 0 then (if get_sign x then neg_zero else zero)
    else float_of_Q (inject_Z n / 100)
  else x.

(** [f"{v:,.2f}"] *)
Definition format_comma_2f (v : float) : string :=
  if is_nan v then "nan"
  else if is_infinity v then (if get_sign v then "-inf" else "inf")
  else
    let cents := Z.abs (round_half_even (Q_of_float v * 100)) in
    (if get_sign v then "-" else EmptyString)
    ++ with_commas (decimal_of_Z (cents / 100)) ++ "."
    ++ two_digits (cents mod 100).

Definition fmt_num (v : float) : string :=
  let s := format_comma_2f v in
  if endswith s ".00" then substring 0 (String.length s - 3) s
  else if has_char "." s then rstrip_char "." (rstrip_char "0" s)
  else s.

Record item_data : Type := { qty : float; total_price : float }.

Definition ledger : Type := dict (dict float).

(** the part of the session state that the core reads and writes *)
Record state : Type :=
  { items : dict item_data;
    people : dict person_data;
    shares : ledger;
    tax : float }.

Definition with_items (st : state) (d : dict item_data) : state :=
  {| items := d; people := people st; shares := shares st; tax := tax st |}.

Definition with_people (st : state) (d : dict person_data) : state :=
  {| items := items st; people := d; shares := shares st; tax := tax st |}.

Definition with_shares (st : state) (sh : ledger) : state :=
  {| items := items st; people := people st; shares := sh; tax := tax st |}.

Definition with_tax (st : state) (t : float) : state :=
  {| items := items st; people := people st; shares := shares st; tax := t |}.

Definition initial_state : state :=
  {| items := []; people := []; shares := []; tax := zero |}.

(** [shares[person]] on the outer [defaultdict] *)
Definition shares_getitem (sh : ledger) (person : string) : dict float * ledger :=
  match get sh person with
  | Some row => (row, sh)
  | None => ([], set sh person [])
  end.

Definition row_of (sh : ledger) (person : string) : dict float :=
  fst (shares_getitem sh person).

Definition touch (st : state) (person : string) : state :=
  with_shares st (snd (shares_getitem (shares st) person)).

(** [shares[person][item] = q] *)
Definition store_share (st : state) (person item : string) (q : float) : state :=
  let (row, sh) := shares_getitem (shares st) person in
  with_shares st (set sh person (set row item q)).

Definition share_of (st : state) (p item : string) : float :=
  get_default (row_of (shares st) p) item zero.

Inductive message : Type :=
| SelectPersonItem
| ItemNotFound (item : string)
| QtyMustBePositive
| NotEnoughRemaining (item : string) (remaining : float)
| QtyMustBeNumber
| QtyMustBeNonnegative
| NotEnoughAvailable (item : string) (available : string)
| ItemNameRequired
| QtyPriceMustBeNumbers
| ItemUpdated (item : string)
| ItemAdded (item : string).

Definition add_item (st : state) (name0 : string) (qty0 total_price0 : pyval)
  : (bool * message) * state :=
  if negb (truthy_str name0) then ((false, ItemNameRequired), st)
  else
    match (qty_f <- pyfloat qty0 ;;
           price_f <- pyfloat total_price0 ;;
           Ok (qty_f, price_f)) with
    | Raise _ => ((false, QtyPriceMustBeNumbers), st)
    | Ok (qty_f, price_f) =>
        let data := {| qty := qty_f; total_price := price_f |} in
        if contains (items st) name0 then
          ((true, ItemUpdated name0), with_items st (set (items st) name0 data))
        else
          ((true, ItemAdded name0), with_items st (set (items st) name0 data))
    end.

Definition add_person (st : state) (name0 email0 : string) : state :=
  if negb (truthy_str name0) then st
  else
    touch (with_people st (set (people st) name0 {| email := strip email0 |}))
          name0.

Definition unit_price (st : state) (item : string) : result float :=
  data <- getitem (items st) item ;;
  if truthy (qty data) then pydiv (total_price data) (qty data) else Ok zero.

Definition used_qty (st : state) (item : string) : float :=
  pysum (map (fun p => get_default (row_of (shares st) p) item zero)
             (keys (shares st))).

Definition remaining_qty (st : state) (item : string) : result float :=
  let used := used_qty st item in
  data <- getitem (items st) item ;;
  Ok (sub (qty data) used).

Definition assign_share (st : state) (person item : string) (qty0 : pyval)
  : result (option message) * state :=
  if (negb (truthy_str person) || negb (truthy_str item))%bool then
    (Ok (Some SelectPersonItem), st)
  else if negb (contains (items st) item) then
    (Ok (Some (ItemNotFound item)), st)
  else
    match pyfloat qty0 with
    | Raise e => (Raise e, st)
    | Ok q =>
        if leb q zero then (Ok (Some QtyMustBePositive), st)
        else
          match remaining_qty st item with
          | Raise e => (Raise e, st)
          | Ok remaining =>
              if ltb remaining q then
                (Ok (Some (NotEnoughRemaining item remaining)), st)
              else
                let (row, sh1) := shares_getitem (shares st) person in
                let st1 := with_shares st sh1 in
                (Ok None,
                 store_share st1 person item (add (get_default row item zero) q))
          end
    end.

Definition set_share (st : state) (person item : string) (qty0 : pyval)
  : result (option message) * state :=
  if (negb (truthy_str person) || negb (truthy_str item))%bool then
    (Ok (Some SelectPersonItem), st)
  else if negb (contains (items st) item) then
    (Ok (Some (ItemNotFound item)), st)
  else
    match pyfloat qty0 with
    | Raise _ => (Ok (Some QtyMustBeNumber), st)
    | Ok qty_f =>
        if ltb qty_f zero then (Ok (Some QtyMustBeNonnegative), st)
        else
          let (row, sh1) := shares_getitem (shares st) person in
          let st1 := with_shares st sh1 in
          let current := get_default row item zero in
          match remaining_qty st1 item with
          | Raise e => (Raise e, st1)
          | Ok remaining =>
              let available := add remaining current in
              if ltb available qty_f then
                (Ok (Some (NotEnoughAvailable item (fmt_num available))), st1)
              else (Ok None, store_share st1 person item qty_f)
          end
    end.

Fixpoint person_total_loop (st : state) (entries : list (string * float))
  (total : float) : result float :=
  match entries with
  | [] => Ok total
  | (item, q) :: rest =>
      up <- unit_price st item ;;
      person_total_loop st rest (add total (mul q up))
  end.

Definition person_total (st : state) (person : string) : result float :=
  person_total_loop st (row_of (shares st) person) zero.

Definition has_share (st : state) (p : string) : bool :=
  pyany (values (row_of (shares st) p)).

Definition tax_share_expr (sub0 total_sub tax_total : float) : result float :=
  if ltb zero total_sub then
    r <- pydiv sub0 total_sub ;; Ok (mul r tax_total)
  else Ok zero.

Fixpoint subtotals_loop (st : state) (ps : list string) (acc : dict float)
  : result (dict float) :=
  match ps with
  | [] => Ok acc
  | p :: rest =>
      if has_share st p then
        t <- person_total st p ;;
        subtotals_loop st rest (set acc p (round2 t))
      else subtotals_loop st rest acc
  end.

Definition subtotals (st : state) : result (dict float) :=
  subtotals_loop st (keys (people st)) [].

Fixpoint totals_loop (total_sub tax_total : float)
  (entries : list (string * float)) (totals : dict float) : result (dict float) :=
  match entries with
  | [] => Ok totals
  | (p, sub0) :: rest =>
      tax_share <- tax_share_expr sub0 total_sub tax_total ;;
      totals_loop total_sub tax_total rest
                  (set totals p (round2 (add sub0 tax_share)))
  end.

Definition all_totals (st : state) : result (dict float) :=
  subs <- subtotals st ;;
  let total_sub := pysum (values subs) in
  let tax_total := tax st in
  totals_loop total_sub tax_total subs [].

(** one item "Pizza" of quantity 2, participants "A" and "B" *)
Definition pizza_state : state :=
  add_person
    (add_person
       (snd (add_item initial_state "Pizza" (PyStr "2") (PyStr "20")))
       "A" EmptyString)
    "B" EmptyString.

(** every allocation names an item of the catalog *)
Definition rows_in_catalog (st : state) : Prop :=
  forall p row item,
    get (shares st) p = Some row -> contains row item = true ->
    contains (items st) item = true.

(** a person's subtotal as a number (0 where [person_total] raises) *)
Definition subtotal_of (st : state) (p : string) : float :=
  match person_total st p with
  | Ok t => t
  | Raise _ => zero
  end.

(** the tax distribution rule *)
Definition tax_share_value (sub0 total_sub tax_total : float) : float :=
  if ltb zero total_sub then mul (div sub0 total_sub) tax_total else zero.

(** one step of the dict comprehension of [all_totals], as a pure function *)
Definition subtotal_step (st : state) (acc : dict float) (p : string)
  : dict float :=
  if has_share st p then set acc p (round2 (subtotal_of st p)) else acc.

(** one step of the loop over [subtotals.items()], as a pure function *)
Definition total_step (total_sub tax_total : float) (acc : dict float)
  (e : string * float) : dict float :=
  set acc (fst e)
      (round2 (add (snd e) (tax_share_value (snd e) total_sub tax_total))).

(** conservation as the specification checks it:
    [sum(assigned[*][item]) <= item.quantity + 1e-9] *)
Definition conserved_at (st : state) (item : string) : bool :=
  match get (items st) item with
  | Some data => leb (used_qty st item) (add (qty data) (float_of_Q (1 # 1000000000)))
  | None => true
  end.

(** Burger and Fries, Ann takes the Burger, Bo the Fries, no tax *)
Definition bill_state : state :=
  let st1 := snd (add_item initial_state "Burger" (PyStr "1") (PyStr "10000")) in
  let st2 := snd (add_item st1 "Fries" (PyStr "1") (PyStr "5000")) in
  let st3 := add_person (add_person st2 "Ann" EmptyString) "Bo" EmptyString in
  let st4 := snd (set_share st3 "Ann" "Burger" (PyStr "1")) in
  snd (set_share st4 "Bo" "Fries" (PyStr "1")).


End Doubles.

(** * Facts *)

(** ** Dictionaries *)

Section DictFacts.
Context {V : Type}.
Implicit Types (d : dict V) (k : string) (v : V).

Lemma get_set_same d k v : get (set d k v) k = Some v.
Proof.
  induction d as [|[k' v'] d IH]; simpl.
  - now rewrite String.eqb_refl.
  - destruct (String.eqb k k') eqn:E; simpl; rewrite E; auto.
Qed.

Lemma get_set_other d k k' v : k <> k' -> get (set d k v) k' = get d k'.
Proof.
  intros Hne. induction d as [|[k0 v0] d IH]; simpl.
  - destruct (String.eqb_spec k' k); congruence.
  - destruct (String.eqb_spec k k0) as [->|Hk]; simpl.
    + destruct (String.eqb_spec k' k0); congruence.
    + now rewrite IH.
Qed.

Lemma get_set d k k' v :
  get (set d k v) k' = if String.eqb k k' then Some v else get d k'.
Proof.
  destruct (String.eqb_spec k k') as [->|Hne].
  - apply get_set_same.
  - now apply get_set_other.
Qed.

Lemma get_In d k v : get d k = Some v -> In (k, v) d.
Proof.
  induction d as [|[k' v'] d IH]; simpl; [discriminate|].
  destruct (String.eqb_spec k k') as [->|Hne]; intros H.
  - injection H as ->. now left.
  - right. auto.
Qed.

Lemma get_None_keys d k : get d k = None <-> ~ In k (keys d).
Proof.
  induction d as [|[k' v'] d IH]; simpl.
  - tauto.
  - destruct (String.eqb_spec k k') as [->|Hne].
    + split; [discriminate | intros H; exfalso; apply H; now left].
    + rewrite IH. split; [intros H [E|I]; congruence | tauto].
Qed.

Lemma get_Some_keys d k v : get d k = Some v -> In k (keys d).
Proof.
  intros H. apply get_In in H. unfold keys.
  change k with (fst (k, v)). now apply in_map.
Qed.

Lemma In_get d k v : wf d -> In (k, v) d -> get d k = Some v.
Proof.
  unfold wf. induction d as [|[k' v'] d IH]; simpl; [tauto|].
  intros Hnd [E|I].
  - injection E as -> ->. now rewrite String.eqb_refl.
  - inversion Hnd as [|? ? Hnotin Hnd']; subst.
    destruct (String.eqb_spec k k') as [->|Hne]; [|auto].
    exfalso. apply Hnotin. change k' with (fst (k', v)). now apply in_map.
Qed.

Lemma contains_keys d k : contains d k = true <-> In k (keys d).
Proof.
  unfold contains. destruct (get d k) eqn:E.
  - split; [intros _; eapply get_Some_keys; eauto | reflexivity].
  - apply get_None_keys in E. split; [discriminate | tauto].
Qed.

Lemma contains_false d k : contains d k = false <-> get d k = None.
Proof.
  unfold contains. destruct (get d k); split; congruence.
Qed.

Lemma keys_set d k v :
  keys (set d k v) = if contains d k then keys d else (keys d ++ [k])%list.
Proof.
  unfold contains. induction d as [|[k' v'] d IH]; simpl; [reflexivity|].
  destruct (String.eqb_spec k k') as [->|Hne]; simpl; [reflexivity|].
  rewrite IH. now destruct (get d k).
Qed.

Lemma wf_set d k v : wf d -> wf (set d k v).
Proof.
  unfold wf. rewrite keys_set. destruct (contains d k) eqn:E; [auto|].
  intros Hnd. apply contains_false, get_None_keys in E.
  apply NoDup_app; [assumption | repeat constructor; auto | ].
  intros x Hx [<-|[]]. contradiction.
Qed.

Lemma In_set d k v k' v' :
  In (k', v') (set d k v) -> (k' = k /\ v' = v) \/ In (k', v') d.
Proof.
  induction d as [|[k0 v0] d IH]; simpl.
  - intros [[= <- <-]|[]]. now left.
  - destruct (String.eqb_spec k k0) as [->|Hne]; simpl.
    + intros [[= <- <-]|H]; [now left | now right; right].
    + intros [H|H]; [now right; left|].
      apply IH in H as [H|H]; [now left | now right; right].
Qed.

Lemma wf_nil : wf (@nil (string * V)).
Proof. constructor. Qed.

End DictFacts.

(** ** Numbers *)

Lemma Qlt_bool_iff x y : Qlt_bool x y = true <-> x < y.
Proof.
  unfold Qlt_bool. rewrite negb_true_iff.
  destruct (Qle_bool y x) eqn:E.
  - apply Qle_bool_iff in E. split; [discriminate | intros H; exfalso; lra].
  - split; [intros _ | reflexivity].
    destruct (Qlt_le_dec x y) as [H|H]; [assumption|].
    apply Qle_bool_iff in H. congruence.
Qed.

Lemma Qlt_bool_false x y : Qlt_bool x y = false <-> y <= x.
Proof.
  unfold Qlt_bool. rewrite negb_false_iff. apply Qle_bool_iff.
Qed.

Lemma Qle_bool_false x y : Qle_bool x y = false <-> y < x.
Proof.
  rewrite <- Qlt_bool_iff. unfold Qlt_bool.
  destruct (Qle_bool x y); simpl; split; congruence.
Qed.

Lemma truthy_true x : truthy x = true <-> ~ x == 0.
Proof.
  unfold truthy. rewrite negb_true_iff.
  destruct (Qeq_bool x 0) eqn:E.
  - apply Qeq_bool_iff in E. split; [discriminate | tauto].
  - split; [|reflexivity]. intros _ H. apply Qeq_bool_iff in H. congruence.
Qed.

Lemma truthy_false x : truthy x = false <-> x == 0.
Proof.
  unfold truthy. rewrite negb_false_iff. apply Qeq_bool_iff.
Qed.

Lemma fold_left_Qplus_acc l a : fold_left Qplus l a == a + fold_left Qplus l 0.
Proof.
  revert a. induction l as [|x l IH]; intros a; simpl.
  - lra.
  - rewrite IH. rewrite (IH (0 + x)). lra.
Qed.

Lemma pysum_nil : pysum [] = 0.
Proof. reflexivity. Qed.

Lemma pysum_cons x l : pysum (x :: l) == x + pysum l.
Proof.
  unfold pysum. simpl. rewrite fold_left_Qplus_acc. lra.
Qed.

Lemma pysum_app l1 l2 : pysum (l1 ++ l2) == pysum l1 + pysum l2.
Proof.
  induction l1 as [|x l1 IH]; simpl.
  - rewrite pysum_nil. lra.
  - rewrite !pysum_cons, IH. lra.
Qed.

Lemma pysum_nonneg l : (forall x, In x l -> 0 <= x) -> 0 <= pysum l.
Proof.
  induction l as [|x l IH]; intros H.
  - rewrite pysum_nil. lra.
  - rewrite pysum_cons.
    assert (0 <= x) by (apply H; now left).
    assert (0 <= pysum l) by (apply IH; intros; apply H; now right).
    lra.
Qed.

Lemma pysum_zero_all l :
  (forall x, In x l -> 0 <= x) -> pysum l == 0 -> forall x, In x l -> x == 0.
Proof.
  induction l as [|y l IH]; intros Hnn Hs x Hin; [destruct Hin|].
  rewrite pysum_cons in Hs.
  assert (0 <= y) by (apply Hnn; now left).
  assert (0 <= pysum l) by (apply pysum_nonneg; intros; apply Hnn; now right).
  destruct Hin as [<-|Hin]; [lra|].
  apply IH; auto; [intros; apply Hnn; now right | lra].
Qed.

Lemma pyany_true l : pyany l = true <-> exists x, In x l /\ ~ x == 0.
Proof.
  unfold pyany. rewrite existsb_exists.
  split; intros [x [Hin Hx]]; exists x; split; auto; now apply truthy_true.
Qed.

Lemma pyany_false l : pyany l = false <-> forall x, In x l -> x == 0.
Proof.
  unfold pyany. split.
  - intros H x Hin. apply truthy_false.
    destruct (truthy x) eqn:E; [|reflexivity].
    assert (existsb truthy l = true) by (apply existsb_exists; eauto).
    congruence.
  - intros H. destruct (existsb truthy l) eqn:E; [|reflexivity].
    apply existsb_exists in E as [x [Hin Hx]].
    apply truthy_true in Hx. exfalso. auto.
Qed.

(** *** Rounding *)

Lemma round_half_even_comp x y : x == y -> round_half_even x = round_half_even y.
Proof.
  intros H. unfold round_half_even.
  assert (Hf : Qfloor x = Qfloor y) by now apply Qfloor_comp.
  rewrite Hf.
  assert (Hc : Qcompare (x - inject_Z (Qfloor y)) (1 # 2)
               = Qcompare (y - inject_Z (Qfloor y)) (1 # 2)).
  { apply Qcompare_comp; [rewrite H|]; reflexivity. }
  now rewrite Hc.
Qed.

Lemma round_half_even_Z n : round_half_even (inject_Z n) = n.
Proof.
  unfold round_half_even. rewrite Qfloor_Z.
  assert (Hc : Qcompare (inject_Z n - inject_Z n) (1 # 2) = Lt).
  { rewrite <- Qlt_alt. lra. }
  now rewrite Hc.
Qed.

#[global] Instance round2_comp : Proper (Qeq ==> Qeq) round2.
Proof.
  intros x y H. unfold round2.
  rewrite (round_half_even_comp (x * 100) (y * 100)); [reflexivity|].
  now rewrite H.
Qed.

Lemma round2_idempotent x : round2 (round2 x) == round2 x.
Proof.
  unfold round2 at 1.
  rewrite (round_half_even_comp _ (inject_Z (round_half_even (x * 100)))).
  - rewrite round_half_even_Z. reflexivity.
  - unfold round2. field.
Qed.

(** ** The ledger *)

Lemma set_set_same {V : Type} (d : dict V) k v v' :
  set (set d k v) k v' = set d k v'.
Proof.
  induction d as [|[k0 v0] d IH]; simpl.
  - now rewrite String.eqb_refl.
  - destruct (String.eqb k k0) eqn:E; simpl; rewrite E; [reflexivity|].
    now rewrite IH.
Qed.

Lemma row_of_get sh p :
  row_of sh p = match get sh p with Some row => row | None => [] end.
Proof.
  unfold row_of, shares_getitem. now destruct (get sh p).
Qed.

Lemma shares_getitem_eta sh p :
  shares_getitem sh p = (row_of sh p, snd (shares_getitem sh p)).
Proof.
  unfold row_of. now destruct (shares_getitem sh p).
Qed.

Lemma touched_present sh p row :
  get sh p = Some row -> snd (shares_getitem sh p) = sh.
Proof.
  unfold shares_getitem. now intros ->.
Qed.

Lemma touched_absent sh p :
  get sh p = None -> snd (shares_getitem sh p) = set sh p [].
Proof.
  unfold shares_getitem. now intros ->.
Qed.

Lemma get_touched sh p : get (snd (shares_getitem sh p)) p = Some (row_of sh p).
Proof.
  rewrite row_of_get. unfold shares_getitem.
  destruct (get sh p) eqn:E; simpl; [assumption | apply get_set_same].
Qed.

Lemma get_touched_other sh p p' :
  p <> p' -> get (snd (shares_getitem sh p)) p' = get sh p'.
Proof.
  intros Hne. unfold shares_getitem.
  destruct (get sh p); simpl; [reflexivity | now apply get_set_other].
Qed.

(** writing a share after the row has been read: one update of the
    person's row *)
Lemma store_share_touched st p item q :
  store_share (with_shares st (snd (shares_getitem (shares st) p))) p item q
  = with_shares st (set (shares st) p (set (row_of (shares st) p) item q)).
Proof.
  unfold store_share. simpl shares.
  rewrite (shares_getitem_eta (snd _)).
  rewrite (row_of_get (snd _)), get_touched.
  rewrite (touched_present _ _ _ (get_touched _ _)).
  unfold with_shares; simpl. f_equal.
  destruct (get (shares st) p) eqn:E.
  - now rewrite (touched_present _ _ _ E).
  - rewrite (touched_absent _ _ E). apply set_set_same.
Qed.

Section RowSums.
Variable f : dict Q -> Q.
Hypothesis f_nil : f [] == 0.

Lemma row_sum_set sh p r :
  row_sum f (set sh p r) == row_sum f sh - f (row_of sh p) + f r.
Proof.
  unfold row_sum. rewrite row_of_get.
  induction sh as [|[k r0] sh IH]; simpl.
  - rewrite pysum_cons, pysum_nil. lra.
  - destruct (String.eqb p k) eqn:E; simpl.
    + rewrite !pysum_cons. lra.
    + rewrite !pysum_cons, IH. lra.
Qed.

Lemma row_sum_touched sh p :
  row_sum f (snd (shares_getitem sh p)) == row_sum f sh.
Proof.
  unfold shares_getitem. destruct (get sh p) eqn:E; simpl; [reflexivity|].
  rewrite row_sum_set, row_of_get, E. lra.
Qed.

(** for distinct keys, looking every key up visits every row once *)
Lemma row_sum_by_key sh :
  wf sh -> map (fun p => f (row_of sh p)) (keys sh) = map (fun e => f (snd e)) sh.
Proof.
  unfold wf. induction sh as [|[k r0] sh IH]; simpl; intros Hnd; [reflexivity|].
  inversion Hnd as [|? ? Hnotin Hnd']; subst.
  rewrite row_of_get. simpl. rewrite String.eqb_refl. f_equal.
  rewrite <- IH by assumption.
  apply map_ext_in. intros p Hp.
  rewrite !row_of_get. simpl.
  destruct (String.eqb_spec p k) as [->|Hne]; [contradiction | reflexivity].
Qed.
End RowSums.

Lemma used_qty_total_assigned st item :
  wf (shares st) -> used_qty st item = total_assigned st item.
Proof.
  intros Hwf. unfold used_qty, total_assigned. f_equal.
  now apply (row_sum_by_key (fun row => get_default row item 0)).
Qed.

Lemma get_default_set_same {V : Type} (d : dict V) k v dflt :
  get_default (set d k v) k dflt = v.
Proof. unfold get_default. now rewrite get_set_same. Qed.

Lemma get_default_set_other {V : Type} (d : dict V) k k' v dflt :
  k <> k' -> get_default (set d k v) k' dflt = get_default d k' dflt.
Proof. intros H. unfold get_default. now rewrite get_set_other. Qed.

Lemma total_assigned_set st p r item :
  total_assigned (with_shares st (set (shares st) p r)) item
  == total_assigned st item - get_default (row_of (shares st) p) item 0
     + get_default r item 0.
Proof.
  unfold total_assigned. simpl shares.
  apply (row_sum_set (fun row => get_default row item 0)). reflexivity.
Qed.

Lemma total_assigned_touch st p item :
  total_assigned (touch st p) item == total_assigned st item.
Proof.
  unfold total_assigned, touch. simpl shares.
  apply (row_sum_touched (fun row => get_default row item 0)). reflexivity.
Qed.

(** ** Valid states are kept by the allocation operations *)

Lemma set_get_same {V : Type} (d : dict V) k v : get d k = Some v -> set d k v = d.
Proof.
  induction d as [|[k0 v0] d IH]; simpl; [discriminate|].
  destruct (String.eqb_spec k k0) as [->|Hne]; intros H.
  - now injection H as ->.
  - now rewrite IH.
Qed.

Lemma touch_as_set st p :
  touch st p = with_shares st (set (shares st) p (row_of (shares st) p)).
Proof.
  unfold touch. f_equal. rewrite row_of_get.
  destruct (get (shares st) p) eqn:E.
  - rewrite (touched_present _ _ _ E). symmetry. now apply set_get_same.
  - now apply touched_absent.
Qed.

Section ValidRows.
Variable st : state.
Hypothesis Hvalid : valid_state st.

Lemma row_of_wf p : wf (row_of (shares st) p).
Proof.
  rewrite row_of_get. destruct (get (shares st) p) eqn:E; [|apply wf_nil].
  destruct (valid_ledger st Hvalid) as [_ H]. eauto.
Qed.

Lemma row_of_in_catalog p item :
  contains (row_of (shares st) p) item = true -> contains (items st) item = true.
Proof.
  rewrite row_of_get. destruct (get (shares st) p) eqn:E; [|discriminate].
  now apply (valid_rows st Hvalid p).
Qed.

Lemma row_of_nonneg p item q : In (item, q) (row_of (shares st) p) -> 0 <= q.
Proof.
  rewrite row_of_get. destruct (get (shares st) p) eqn:E; [|intros []].
  now apply (valid_nonneg st Hvalid p).
Qed.

Lemma valid_set_row p r :
  wf r ->
  (forall item, contains r item = true -> contains (items st) item = true) ->
  (forall item q, In (item, q) r -> 0 <= q) ->
  (forall item data,
      get (items st) item = Some data ->
      total_assigned st item - get_default (row_of (shares st) p) item 0
      + get_default r item 0 <= qty data + epsilon) ->
  valid_state (with_shares st (set (shares st) p r)).
Proof.
  intros Hwf Hcat Hnn Hsum.
  destruct Hvalid as [Hi Hp [Hl Hrows] Hc Hn Hcons].
  constructor; simpl; auto.
  - split; [now apply wf_set|].
    intros p0 row. rewrite get_set.
    destruct (String.eqb p p0); [intros [= <-]; assumption | apply Hrows].
  - intros p0 row item. simpl. rewrite get_set.
    destruct (String.eqb p p0); [intros [= <-]; apply Hcat | apply Hc].
  - intros p0 row item q. simpl. rewrite get_set.
    destruct (String.eqb p p0); [intros [= <-]; apply Hnn | apply Hn].
  - intros item data Hget. rewrite total_assigned_set. now apply Hsum.
Qed.

Lemma valid_touch p : valid_state (touch st p).
Proof.
  rewrite touch_as_set. apply valid_set_row.
  - apply row_of_wf.
  - apply row_of_in_catalog.
  - apply row_of_nonneg.
  - intros item data Hget.
    pose proof (valid_conserved st Hvalid item data Hget). lra.
Qed.

(** the row of [p] with [item] set to [q], when [item] is in the catalog,
    [q] is not negative and the item's total stays within its quantity *)
Lemma valid_store p item q data :
  get (items st) item = Some data ->
  0 <= q ->
  total_assigned st item - get_default (row_of (shares st) p) item 0 + q
  <= qty data ->
  valid_state
    (with_shares st (set (shares st) p (set (row_of (shares st) p) item q))).
Proof.
  intros Hget Hq Hfit. apply valid_set_row.
  - apply wf_set, row_of_wf.
  - intros item0. destruct (String.eqb_spec item item0) as [<-|Hne].
    + intros _. unfold contains. now rewrite Hget.
    + unfold contains. rewrite get_set_other by assumption.
      apply row_of_in_catalog.
  - intros item0 q0 Hin. apply In_set in Hin as [[_ ->]|Hin]; [assumption|].
    eapply row_of_nonneg; eauto.
  - intros item0 data0 Hget0.
    destruct (String.eqb_spec item item0) as [<-|Hne].
    + rewrite get_default_set_same.
      assert (data0 = data) by congruence. subst data0.
      unfold epsilon. lra.
    + rewrite get_default_set_other by assumption.
      pose proof (valid_conserved st Hvalid item0 data0 Hget0). lra.
Qed.
End ValidRows.

Lemma remaining_qty_Ok st item r :
  remaining_qty st item = Ok r ->
  exists data, get (items st) item = Some data /\ r = qty data - used_qty st item.
Proof.
  unfold remaining_qty, getitem. destruct (get (items st) item) as [data|]; simpl.
  - intros [= <-]. eauto.
  - discriminate.
Qed.

Lemma remaining_qty_known st item :
  contains (items st) item = true -> exists r, remaining_qty st item = Ok r.
Proof.
  unfold contains, remaining_qty, getitem.
  destruct (get (items st) item); simpl; [eauto | discriminate].
Qed.

Lemma used_qty_touch st p item :
  wf (shares st) ->
  used_qty (with_shares st (snd (shares_getitem (shares st) p))) item
  == total_assigned st item.
Proof.
  intros Hwf. rewrite used_qty_total_assigned.
  - apply total_assigned_touch.
  - simpl. unfold shares_getitem. destruct (get (shares st) p); simpl;
      [assumption | now apply wf_set].
Qed.

Lemma set_share_valid st person item qty0 :
  valid_state st -> valid_state (snd (set_share st person item qty0)).
Proof.
  intros Hv. unfold set_share.
  destruct (negb (truthy_str person) || negb (truthy_str item))%bool; [assumption|].
  destruct (contains (items st) item) eqn:Hitem; simpl; [|assumption].
  destruct (pyfloat qty0) as [q|]; [|assumption].
  destruct (Qlt_bool q 0) eqn:Hneg; [assumption|].
  rewrite (shares_getitem_eta (shares st) person).
  destruct (remaining_qty _ item) as [remaining|] eqn:Hrem; simpl;
    [|now apply valid_touch].
  destruct (Qlt_bool (remaining + _) q) eqn:Hcap; simpl; [now apply valid_touch|].
  rewrite store_share_touched.
  apply remaining_qty_Ok in Hrem as [data [Hget ->]]. simpl in Hget.
  apply Qlt_bool_false in Hneg, Hcap.
  pose proof (used_qty_touch st person item (proj1 (valid_ledger st Hv))) as Hu.
  apply valid_store with (data := data); auto. lra.
Qed.

Lemma assign_share_valid st person item qty0 :
  valid_state st -> valid_state (snd (assign_share st person item qty0)).
Proof.
  intros Hv. unfold assign_share.
  destruct (negb (truthy_str person) || negb (truthy_str item))%bool; [assumption|].
  destruct (contains (items st) item) eqn:Hitem; simpl; [|assumption].
  destruct (pyfloat qty0) as [q|]; [|assumption].
  destruct (Qle_bool q 0) eqn:Hpos; [assumption|].
  destruct (remaining_qty st item) as [remaining|] eqn:Hrem; simpl; [|assumption].
  destruct (Qlt_bool remaining q) eqn:Hcap; simpl; [assumption|].
  rewrite (shares_getitem_eta (shares st) person).
  rewrite store_share_touched.
  apply remaining_qty_Ok in Hrem as [data [Hget ->]].
  apply Qle_bool_false in Hpos. apply Qlt_bool_false in Hcap.
  rewrite (used_qty_total_assigned st item (proj1 (valid_ledger st Hv))) in Hcap.
  assert (0 <= get_default (row_of (shares st) person) item 0) as Hold.
  { unfold get_default.
    destruct (get (row_of (shares st) person) item) eqn:E; [|lra].
    apply get_In in E. eapply row_of_nonneg; eauto. }
  apply valid_store with (data := data); auto; lra.
Qed.

Lemma initial_state_valid : valid_state initial_state.
Proof.
  constructor; simpl; try apply wf_nil.
  - split; [apply wf_nil | discriminate].
  - discriminate.
  - discriminate.
  - discriminate.
Qed.

(** ** Settlement *)

Lemma pydiv_nonzero x y : truthy y = true -> pydiv x y = Ok (x / y).
Proof.
  unfold pydiv, truthy. rewrite negb_true_iff. now intros ->.
Qed.

Lemma unit_price_known st item data :
  get (items st) item = Some data ->
  unit_price st item
  = Ok (if truthy (qty data) then total_price data / qty data else 0).
Proof.
  intros H. unfold unit_price, getitem. rewrite H. simpl.
  destruct (truthy (qty data)) eqn:E; [now apply pydiv_nonzero | reflexivity].
Qed.

Lemma unit_price_unknown st item :
  get (items st) item = None -> unit_price st item = Raise (KeyError item).
Proof.
  intros H. unfold unit_price, getitem. now rewrite H.
Qed.

Lemma person_total_loop_total st entries total :
  (forall item q, In (item, q) entries -> contains (items st) item = true) ->
  exists t, person_total_loop st entries total = Ok t.
Proof.
  revert total. induction entries as [|[item q] entries IH]; intros total H; simpl.
  - eauto.
  - assert (Hc : contains (items st) item = true) by (eapply H; now left).
    unfold contains in Hc. destruct (get (items st) item) as [data|] eqn:E;
      [|discriminate].
    rewrite (unit_price_known _ _ _ E). simpl.
    apply IH. intros; eapply H; right; eauto.
Qed.

Lemma person_total_total st p :
  rows_in_catalog st -> exists t, person_total st p = Ok t.
Proof.
  intros Hc. unfold person_total. apply person_total_loop_total.
  intros item q Hin. rewrite row_of_get in Hin.
  destruct (get (shares st) p) as [row|] eqn:E; [|destruct Hin].
  apply (Hc p row item E). apply contains_keys.
  change item with (fst (item, q)). now apply in_map.
Qed.

Lemma person_total_subtotal_of st p :
  rows_in_catalog st -> person_total st p = Ok (subtotal_of st p).
Proof.
  intros Hc. unfold subtotal_of.
  destruct (person_total_total st p Hc) as [t ->]. reflexivity.
Qed.

Lemma tax_share_expr_value sub total_sub tax_total :
  tax_share_expr sub total_sub tax_total
  = Ok (tax_share_value sub total_sub tax_total).
Proof.
  unfold tax_share_expr, tax_share_value.
  destruct (Qlt_bool 0 total_sub) eqn:E; [|reflexivity].
  rewrite pydiv_nonzero; [reflexivity|].
  apply Qlt_bool_iff in E. apply truthy_true. lra.
Qed.

Lemma set_fresh {V : Type} (d : dict V) k v :
  ~ In k (keys d) -> set d k v = (d ++ [(k, v)])%list.
Proof.
  induction d as [|[k0 v0] d IH]; simpl; intros H; [reflexivity|].
  destruct (String.eqb_spec k k0) as [->|Hne]; [exfalso; auto|].
  rewrite IH; auto.
Qed.

Section Subtotals.
Variable st : state.
Hypothesis Hcat : rows_in_catalog st.

Lemma subtotals_loop_fold ps acc :
subtotals_loop st ps acc = Ok (fold_left (subtotal_step st) ps acc).
Proof.
revert acc. induction ps as [|p ps IH]; intros acc; simpl; [reflexivity|].
unfold subtotal_step at 2. destruct (has_share st p); [|apply IH].
rewrite (person_total_subtotal_of st p Hcat). simpl. apply IH.
Qed.

Lemma get_subtotal_fold ps acc p :
get (fold_left (subtotal_step st) ps acc) p
= if (existsb (String.eqb p) ps && has_share st p)%bool
  then Some (round2 (subtotal_of st p)) else get acc p.
Proof.
revert acc. induction ps as [|p0 ps IH]; intros acc; simpl; [reflexivity|].
rewrite IH. unfold subtotal_step.
destruct (String.eqb_spec p p0) as [->|Hne]; simpl.
- destruct (has_share st p0) eqn:Hs.
  + rewrite andb_true_r. destruct (existsb (String.eqb p0) ps); [reflexivity|].
    apply get_set_same.
  + now rewrite andb_false_r.
- destruct (existsb (String.eqb p) ps && has_share st p)%bool; [reflexivity|].
  destruct (has_share st p0); [|reflexivity].
  apply get_set_other. congruence.
Qed.

Lemma wf_subtotal_fold ps acc : wf acc -> wf (fold_left (subtotal_step st) ps acc).
Proof.
revert acc. induction ps as [|p ps IH]; intros acc H; simpl; [assumption|].
apply IH. unfold subtotal_step. destruct (has_share st p); [now apply wf_set|assumption].
Qed.

Lemma subtotal_fold_app ps acc :
NoDup ps -> (forall p, In p ps -> ~ In p (keys acc)) ->
fold_left (subtotal_step st) ps acc
= (acc ++ map (fun p => (p, round2 (subtotal_of st p)))
             (filter (has_share st) ps))%list.
Proof.
revert acc. induction ps as [|p ps IH]; intros acc Hnd Hfresh; simpl.
- now rewrite app_nil_r.
- inversion Hnd as [|? ? Hnotin Hnd']; subst.
  unfold subtotal_step at 2. destruct (has_share st p) eqn:Hs.
  + rewrite set_fresh by (apply Hfresh; now left).
    rewrite IH; [rewrite <- app_assoc; reflexivity | assumption |].
    intros p' Hin. unfold keys. rewrite map_app, in_app_iff. simpl.
    intros [H|[<-|[]]]; [|contradiction].
    apply (Hfresh p'); [now right | assumption].
  + apply IH; [assumption|]. intros p' Hin. apply Hfresh. now right.
Qed.

Lemma included_subtotals_map ps :
included_subtotals st ps
= Ok (map (fun p => round2 (subtotal_of st p)) (filter (has_share st) ps)).
Proof.
induction ps as [|p ps IH]; simpl; [reflexivity|].
destruct (has_share st p); [|assumption].
rewrite (person_total_subtotal_of st p Hcat). simpl. now rewrite IH.
Qed.

Lemma subtotals_spec :
exists subs,
  subtotals st = Ok subs /\ wf subs
  /\ (forall p, get subs p
                = if is_included st p then Some (round2 (subtotal_of st p))
                  else None)
  /\ (wf (people st) ->
      values subs = map (fun p => round2 (subtotal_of st p)) (included st)).
Proof.
exists (fold_left (subtotal_step st) (keys (people st)) []).
split; [apply subtotals_loop_fold|].
split; [apply wf_subtotal_fold, wf_nil|].
split.
- intros p. rewrite get_subtotal_fold. reflexivity.
- intros Hwf. rewrite subtotal_fold_app; [|assumption|intros p _ []].
  simpl. unfold values, included. rewrite map_map. reflexivity.
Qed.
End Subtotals.

Lemma totals_loop_fold total_sub tax_total entries acc :
  totals_loop total_sub tax_total entries acc
  = Ok (fold_left (total_step total_sub tax_total) entries acc).
Proof.
  revert acc. induction entries as [|[p sub] entries IH]; intros acc; simpl;
    [reflexivity|].
  rewrite tax_share_expr_value. simpl. apply IH.
Qed.

Lemma get_total_fold total_sub tax_total entries acc p :
  wf entries ->
  get (fold_left (total_step total_sub tax_total) entries acc) p
  = match get entries p with
    | Some sub => Some (round2 (sub + tax_share_value sub total_sub tax_total))
    | None => get acc p
    end.
Proof.
  unfold wf. revert acc.
  induction entries as [|[k sub] entries IH]; intros acc Hnd; simpl; [reflexivity|].
  inversion Hnd as [|? ? Hnotin Hnd']; subst.
  rewrite IH by assumption. unfold total_step. simpl.
  destruct (String.eqb_spec p k) as [->|Hne].
  - apply get_None_keys in Hnotin. rewrite Hnotin. apply get_set_same.
  - destruct (get entries p); [reflexivity|]. apply get_set_other. congruence.
Qed.

(** what [all_totals] returns, entry by entry *)
Lemma all_totals_spec st :
  rows_in_catalog st ->
  exists subs totals,
    subtotals st = Ok subs /\ all_totals st = Ok totals
    /\ (forall p, get subs p
                  = if is_included st p then Some (round2 (subtotal_of st p))
                    else None)
    /\ (wf (people st) -> pysum (values subs) = spec_total_sub st)
    /\ (forall p, get totals p
                  = match get subs p with
                    | Some sub =>
                        Some (round2 (sub + tax_share_value sub (pysum (values subs))
                                                           (tax st)))
                    | None => None
                    end).
Proof.
  intros Hcat.
  destruct (subtotals_spec st Hcat) as [subs [Hsubs [Hwf [Hget Hvals]]]].
  exists subs.
  exists (fold_left (total_step (pysum (values subs)) (tax st)) subs []).
  split; [assumption|]. split.
  - unfold all_totals. rewrite Hsubs. simpl. apply totals_loop_fold.
  - split; [assumption|]. split.
    + intros Hp. unfold spec_total_sub. now rewrite Hvals.
    + intros p. rewrite get_total_fold by assumption. reflexivity.
Qed.

Lemma is_included_true st p :
  is_included st p = true <-> In p (keys (people st)) /\ has_share st p = true.
Proof.
  unfold is_included. rewrite andb_true_iff, existsb_exists. split.
  - intros [[x [Hin Hx]] Hs]. apply String.eqb_eq in Hx. subst. auto.
  - intros [Hin Hs]. split; [|assumption]. exists p. split; [assumption|].
    apply String.eqb_refl.
Qed.

(** ** The scenario states are valid *)

Lemma pysum_all_zero l : (forall x, In x l -> x == 0) -> pysum l == 0.
Proof.
  induction l as [|x l IH]; intros H.
  - rewrite pysum_nil. reflexivity.
  - rewrite pysum_cons, IH by (intros; apply H; now right).
    rewrite (H x) by now left. lra.
Qed.

Lemma total_assigned_unlisted st item :
  valid_state st -> contains (items st) item = false ->
  total_assigned st item == 0.
Proof.
  intros Hv Hno. unfold total_assigned. apply pysum_all_zero.
  intros x Hin. apply in_map_iff in Hin as [[p row] [<- Hin]]. simpl.
  apply (In_get _ _ _ (proj1 (valid_ledger st Hv))) in Hin.
  unfold get_default. destruct (get row item) eqn:E; [|reflexivity].
  assert (contains row item = true) by (unfold contains; now rewrite E).
  rewrite (valid_rows st Hv p row item Hin) in Hno by assumption. discriminate.
Qed.

Lemma add_item_valid_fresh st item q price :
  valid_state st -> contains (items st) item = false -> 0 <= q ->
  valid_state (snd (add_item st item (PyFloat q) (PyFloat price))).
Proof.
  intros Hv Hno Hq. unfold add_item.
  destruct (negb (truthy_str item)); [assumption|]. simpl.
  rewrite Hno. simpl.
  pose proof (total_assigned_unlisted st item Hv Hno) as Hzero.
  destruct Hv as [Hi Hp Hl Hc Hn Hcons].
  constructor; simpl; auto.
  - now apply wf_set.
  - intros p row item0 Hrow Hin. simpl in *.
    unfold contains. rewrite get_set.
    destruct (String.eqb item item0); [reflexivity|].
    apply (Hc p row item0 Hrow Hin).
  - intros item0 data. simpl. rewrite get_set.
    destruct (String.eqb_spec item item0) as [<-|Hne].
    + intros [= <-]. simpl. unfold total_assigned in *. simpl.
      unfold epsilon. lra.
    + apply Hcons.
Qed.

Lemma add_person_valid st person mail :
  valid_state st -> valid_state (add_person st person mail).
Proof.
  intros Hv. unfold add_person.
  destruct (negb (truthy_str person)); [assumption|].
  apply valid_touch.
  destruct Hv as [Hi Hp Hl Hc Hn Hcons].
  constructor; simpl; auto. now apply wf_set.
Qed.

Lemma with_tax_valid st t : valid_state st -> valid_state (with_tax st t).
Proof.
  intros [Hi Hp Hl Hc Hn Hcons]. constructor; assumption.
Qed.

Lemma pizza_state_valid : valid_state pizza_state.
Proof.
  unfold pizza_state. do 2 apply add_person_valid.
  apply add_item_valid_fresh;
    [apply initial_state_valid | reflexivity | discriminate].
Qed.

Lemma bill_state_valid : valid_state bill_state.
Proof.
  unfold bill_state. apply with_tax_valid.
  do 2 apply set_share_valid. do 2 apply add_person_valid.
  apply add_item_valid_fresh; [|reflexivity | discriminate].
  apply add_item_valid_fresh;
    [apply initial_state_valid | reflexivity | discriminate].
Qed.

Lemma tea_state_valid : valid_state tea_state.
Proof.
  unfold tea_state. apply with_tax_valid.
  do 2 apply set_share_valid. do 2 apply add_person_valid.
  apply add_item_valid_fresh;
    [apply initial_state_valid | reflexivity | discriminate].
Qed.

(** ** Outcomes of [set_share] and [assign_share] *)

Lemma Qlt_bool_comp x x' y y' : x == x' -> y == y' -> Qlt_bool x y = Qlt_bool x' y'.
Proof.
  intros Hx Hy.
  destruct (Qlt_bool x' y') eqn:E.
  - apply Qlt_bool_iff. apply Qlt_bool_iff in E. lra.
  - apply Qlt_bool_false. apply Qlt_bool_false in E. lra.
Qed.

Lemma fmt_num_comp x y : x == y -> fmt_num x = fmt_num y.
Proof.
  intros H. unfold fmt_num, format_comma_2f.
  rewrite (round_half_even_comp (x * 100) (y * 100)) by now rewrite H.
  rewrite (Qlt_bool_comp x y 0 0) by (assumption || reflexivity).
  reflexivity.
Qed.

Lemma get_app {V : Type} (d d' : dict V) k :
  get (d ++ d')%list k = match get d k with Some v => Some v | None => get d' k end.
Proof.
  induction d as [|[k0 v0] d IH]; simpl; [reflexivity|].
  destruct (String.eqb k k0); [reflexivity | apply IH].
Qed.

(** reading a row changes no sum over the ledger *)
Lemma used_qty_touched st p item :
  used_qty (with_shares st (snd (shares_getitem (shares st) p))) item
  == used_qty st item.
Proof.
  unfold used_qty. simpl shares.
  destruct (get (shares st) p) as [row|] eqn:E.
  - rewrite (touched_present _ _ _ E). reflexivity.
  - rewrite (touched_absent _ _ E).
    assert (Hp : ~ In p (keys (shares st))) by now apply get_None_keys.
    rewrite set_fresh by assumption.
    unfold keys at 1. rewrite map_app, map_app, pysum_app. simpl.
    rewrite pysum_cons, pysum_nil.
    rewrite row_of_get at 1. rewrite get_app, E. simpl.
    rewrite String.eqb_refl. unfold get_default at 2. simpl.
    match goal with
    | |- pysum ?l + _ == _ =>
        assert (Hm : l = map (fun p0 => get_default (row_of (shares st) p0) item 0)
                           (keys (shares st)))
    end.
    { apply map_ext_in. intros k Hk. rewrite !row_of_get, get_app.
      destruct (get (shares st) k) eqn:Ek; [reflexivity|].
      apply get_None_keys in Ek. contradiction. }
    rewrite Hm. lra.
Qed.

Lemma remaining_qty_touched st p item data :
  get (items st) item = Some data ->
  exists r,
    remaining_qty (with_shares st (snd (shares_getitem (shares st) p))) item = Ok r
    /\ r == qty data - used_qty st item.
Proof.
  intros H. unfold remaining_qty, getitem. simpl items. rewrite H. simpl.
  eexists. split; [reflexivity|]. rewrite used_qty_touched. reflexivity.
Qed.

Lemma truthy_str_false s : truthy_str s = false <-> s = EmptyString.
Proof. destruct s; simpl; split; congruence. Qed.

Lemma contains_true_get {V : Type} (d : dict V) k :
  contains d k = true -> exists v, get d k = Some v.
Proof. unfold contains. destruct (get d k); [eauto | discriminate]. Qed.

(** [set_share] returns: it never raises *)
Lemma set_share_returns st person item qty0 :
  exists m, fst (set_share st person item qty0) = Ok m.
Proof.
  unfold set_share.
  destruct (negb (truthy_str person) || negb (truthy_str item))%bool;
    [simpl; eauto|].
  destruct (contains (items st) item) eqn:Hitem; cbn [negb]; [|simpl; eauto].
  destruct (pyfloat qty0) as [q|]; [|simpl; eauto].
  destruct (Qlt_bool q 0); [simpl; eauto|].
  rewrite (shares_getitem_eta (shares st) person).
  apply contains_true_get in Hitem as [data Hget].
  destruct (remaining_qty_touched st person item data Hget) as [r [-> _]].
  destruct (Qlt_bool _ q); simpl; eauto.
Qed.

(** a call of [assign_share] that does not succeed leaves the state as it is *)
Lemma assign_share_refused_unchanged st person item qty0 :
  fst (assign_share st person item qty0) <> Ok None ->
  snd (assign_share st person item qty0) = st.
Proof.
  unfold assign_share.
  destruct (negb (truthy_str person) || negb (truthy_str item))%bool; [reflexivity|].
  destruct (negb (contains (items st) item)); [reflexivity|].
  destruct (pyfloat qty0) as [q|]; [|reflexivity].
  destruct (Qle_bool q 0); [reflexivity|].
  destruct (remaining_qty st item) as [remaining|]; [|reflexivity].
  destruct (Qlt_bool remaining q); [reflexivity|].
  rewrite (shares_getitem_eta (shares st) person). simpl. congruence.
Qed.

Lemma with_shares_same st : with_shares st (shares st) = st.
Proof. now destruct st. Qed.

(** a refused [set_share] writes no quantity; all it can leave behind is an
    empty row for a person that had none *)
Lemma set_share_refused_state st person item qty0 :
  fst (set_share st person item qty0) <> Ok None ->
  snd (set_share st person item qty0) = st
  \/ snd (set_share st person item qty0) = touch st person.
Proof.
  unfold set_share.
  destruct (negb (truthy_str person) || negb (truthy_str item))%bool; [now left|].
  destruct (negb (contains (items st) item)); [now left|].
  destruct (pyfloat qty0) as [q|]; [|now left].
  destruct (Qlt_bool q 0); [now left|].
  rewrite (shares_getitem_eta (shares st) person).
  destruct (remaining_qty _ item) as [remaining|]; [|now right].
  destruct (Qlt_bool _ q); [now right|].
  simpl. congruence.
Qed.

Lemma touch_present st person :
  contains (shares st) person = true -> touch st person = st.
Proof.
  intros H. apply contains_true_get in H as [row H].
  unfold touch. rewrite (touched_present _ _ _ H). apply with_shares_same.
Qed.

Lemma set_share_refused_unchanged st person item qty0 :
  contains (shares st) person = true ->
  fst (set_share st person item qty0) <> Ok None ->
  snd (set_share st person item qty0) = st.
Proof.
  intros Hrow Hfail.
  destruct (set_share_refused_state st person item qty0 Hfail) as [H|H];
    [assumption|].
  now rewrite H, touch_present.
Qed.


(** ** Exceptions of the settlement functions *)

Lemma unit_price_raises st item e :
  unit_price st item = Raise e -> e = KeyError item.
Proof.
  intros H. destruct (get (items st) item) as [data|] eqn:E.
  - rewrite (unit_price_known st item data E) in H. discriminate.
  - rewrite (unit_price_unknown st item E) in H. now injection H as <-.
Qed.

Lemma person_total_loop_raises st entries total e :
  person_total_loop st entries total = Raise e -> exists k, e = KeyError k.
Proof.
  revert total. induction entries as [|[item q] entries IH]; intros total; simpl.
  - discriminate.
  - destruct (unit_price st item) as [up|e0] eqn:E; simpl.
    + apply IH.
    + intros [= <-]. apply unit_price_raises in E. eauto.
Qed.

Lemma subtotals_loop_raises st ps acc e :
  subtotals_loop st ps acc = Raise e -> exists k, e = KeyError k.
Proof.
  revert acc. induction ps as [|p ps IH]; intros acc; simpl; [discriminate|].
  destruct (has_share st p); [|apply IH].
  destruct (person_total st p) as [t|e0] eqn:E; simpl; [apply IH|].
  intros [= <-]. unfold person_total in E.
  now apply person_total_loop_raises in E.
Qed.

(** [all_totals] divides by no zero: all it can raise is the [KeyError] of
    an allocation that names an item outside the catalog *)
Lemma all_totals_raises st e :
  all_totals st = Raise e -> exists k, e = KeyError k.
Proof.
  unfold all_totals, subtotals.
  destruct (subtotals_loop st (keys (people st)) []) as [subs|e0] eqn:E; simpl.
  - rewrite totals_loop_fold. discriminate.
  - intros [= <-]. now apply subtotals_loop_raises in E.
Qed.

(** * The claims *)




(** C8, as the specification states it, fails: for an item that is not in
    the catalog [unit_price] raises [KeyError]; it does not return 0. *)
Lemma unit_price_unknown_item_raises :
  get (items pizza_state) "Cola" = None
  /\ unit_price pizza_state "Cola" = Raise (KeyError "Cola")
  /\ unit_price pizza_state "Cola" <> Ok 0.
Proof.
  repeat split. discriminate.
Qed.

(** C8, amended.  For an item of the catalog [unit_price] returns
    total price / quantity when the quantity is positive and 0 when the
    quantity is 0, without dividing by zero; for a name that is not in the
    catalog it raises [KeyError]. *)
Theorem unit_price_cases :
  forall (st : state) (item : string),
    (forall data,
        get (items st) item = Some data -> 0 < qty data ->
        unit_price st item = Ok (total_price data / qty data))
    /\ (forall data,
           get (items st) item = Some data -> qty data == 0 ->
           unit_price st item = Ok 0)
    /\ (get (items st) item = None ->
        unit_price st item = Raise (KeyError item)).
Proof.
  intros st item. repeat split.
  - intros data Hget Hpos. rewrite (unit_price_known st item data Hget).
    assert (H : truthy (qty data) = true) by (apply truthy_true; lra).
    now rewrite H.
  - intros data Hget Hzero. rewrite (unit_price_known st item data Hget).
    apply truthy_false in Hzero. now rewrite Hzero.
  - apply unit_price_unknown.
Qed.

Lemma unit_price_cases_witness :
  unit_price pizza_state "Pizza" = Ok (20 / 2)
  /\ unit_price water_state "Water" = Ok 0
  /\ unit_price pizza_state "Cola" = Raise (KeyError "Cola").
Proof.
  split; [|split].
  - apply (proj1 (unit_price_cases pizza_state "Pizza")
             {| qty := 2; total_price := 20 |}); reflexivity.
  - apply (proj1 (proj2 (unit_price_cases water_state "Water"))
             {| qty := 0; total_price := 0 |}); reflexivity.
  - apply (proj2 (proj2 (unit_price_cases pizza_state "Cola"))). reflexivity.
Defined.

(** C3, as the specification states it, fails: [set_share] checks no
    participant.  "Ghost" is not in the roster, and the call succeeds and
    stores the quantity. *)
Lemma set_share_accepts_unknown_person :
  contains (people pizza_state) "Ghost" = false
  /\ contains (shares pizza_state) "Ghost" = false
  /\ fst (set_share pizza_state "Ghost" "Pizza" (PyFloat 1)) = Ok None
  /\ get (shares (snd (set_share pizza_state "Ghost" "Pizza" (PyFloat 1))))
         "Ghost"
     = Some [("Pizza", 1)].
Proof.
  repeat split.
Qed.

(** C3, amended.  [set_share] validates in this order and never raises:
    an empty person or item name gives "Select person & item."; then an item
    that is not in the catalog gives the not-found message, before the
    quantity is read; then a quantity that does not parse gives "Qty must be
    a number."; then a negative quantity gives "Qty must be >= 0."; then a
    quantity above the item's remaining quantity plus the person's current
    share gives the capacity message with that available amount; otherwise
    the call succeeds.  The roster is not consulted: the participant need not
    exist. *)
Theorem set_share_validation_order :
  forall (st : state) (person item : string) (qty0 : pyval),
    let out := fst (set_share st person item qty0) in
    (person = EmptyString \/ item = EmptyString ->
     out = Ok (Some SelectPersonItem))
    /\ (person <> EmptyString -> item <> EmptyString ->
        contains (items st) item = false ->
        out = Ok (Some (ItemNotFound item))
        /\ kind_of (ItemNotFound item) = Some NotFoundError)
    /\ (person <> EmptyString -> item <> EmptyString ->
        forall data, get (items st) item = Some data ->
        (raises (pyfloat qty0) -> out = Ok (Some QtyMustBeNumber))
        /\ (forall q, pyfloat qty0 = Ok q ->
            let current := get_default (row_of (shares st) person) item 0 in
            let available := qty data - used_qty st item + current in
            (q < 0 -> out = Ok (Some QtyMustBeNonnegative))
            /\ (0 <= q -> available < q ->
                out = Ok (Some (NotEnoughAvailable item (fmt_num available))))
            /\ (0 <= q -> q <= available -> out = Ok None)))
    /\ (forall roster,
           fst (set_share (with_people st roster) person item qty0) = out).
Proof.
  intros st person item qty0 out. subst out. unfold set_share.
  split; [|split; [|split]].
  - intros [-> | ->]; simpl; [reflexivity|].
    now rewrite orb_true_r.
  - intros Hp Hi Hno.
    destruct person; [congruence|]. destruct item; [congruence|].
    simpl. rewrite Hno. now split.
  - intros Hp Hi data Hget.
    assert (Hc : contains (items st) item = true)
      by (unfold contains; now rewrite Hget).
    destruct person as [|c person]; [congruence|].
    destruct item as [|c' item]; [congruence|].
    cbn [truthy_str negb orb]. rewrite Hc. cbn [negb].
    split.
    + intros [e ->]. reflexivity.
    + intros q ->.
      rewrite (shares_getitem_eta (shares st)).
      destruct (remaining_qty_touched st (String c person) (String c' item)
                  data Hget) as [r [-> Hr]].
      set (cur := get_default (row_of (shares st) (String c person))
                              (String c' item) 0) in *.
      assert (Hav : r + cur == qty data - used_qty st (String c' item) + cur)
        by now rewrite Hr.
      repeat split.
      * intros Hneg. apply Qlt_bool_iff in Hneg. now rewrite Hneg.
      * intros Hnn Hcap.
        apply Qlt_bool_false in Hnn. rewrite Hnn.
        rewrite <- Hav in Hcap. apply Qlt_bool_iff in Hcap. rewrite Hcap.
        simpl. now rewrite (fmt_num_comp _ _ Hav).
      * intros Hnn Hfit.
        apply Qlt_bool_false in Hnn. rewrite Hnn.
        rewrite <- Hav in Hfit. apply Qlt_bool_false in Hfit. rewrite Hfit.
        reflexivity.
  - intros roster. simpl items. simpl shares.
    destruct (negb (truthy_str person) || negb (truthy_str item))%bool;
      [reflexivity|].
    destruct (negb (contains (items st) item)); [reflexivity|].
    destruct (pyfloat qty0) as [q|]; [|reflexivity].
    destruct (Qlt_bool q 0); [reflexivity|].
    destruct (shares_getitem (shares st) person) as [row sh1].
    change (remaining_qty (with_shares (with_people st roster) sh1) item)
      with (remaining_qty (with_shares st sh1) item).
    destruct (remaining_qty (with_shares st sh1) item) as [r|]; [|reflexivity].
    destruct (Qlt_bool _ q); reflexivity.
Qed.

Lemma set_share_validation_order_witness :
  fst (set_share pizza_state EmptyString "Pizza" (PyFloat 1))
  = Ok (Some SelectPersonItem)
  /\ fst (set_share pizza_state "A" "Cola" (PyStr "abc"))
     = Ok (Some (ItemNotFound "Cola"))
  /\ fst (set_share pizza_state "A" "Pizza" (PyStr "abc"))
     = Ok (Some QtyMustBeNumber)
  /\ fst (set_share pizza_state "A" "Pizza" (PyFloat (-1)))
     = Ok (Some QtyMustBeNonnegative)
  /\ fst (set_share pizza_state "A" "Pizza" (PyFloat 3))
     = Ok (Some (NotEnoughAvailable "Pizza" (fmt_num (2 - 0 + 0))))
  /\ fst (set_share pizza_state "A" "Pizza" (PyFloat 2)) = Ok None.
Proof.
  pose (pizza := {| qty := 2; total_price := 20 |}).
  assert (HA : "A" <> EmptyString) by discriminate.
  assert (HP : "Pizza" <> EmptyString) by discriminate.
  assert (HC : "Cola" <> EmptyString) by discriminate.
  split; [|split; [|split; [|split; [|split]]]].
  - apply (proj1 (set_share_validation_order pizza_state EmptyString "Pizza"
                    (PyFloat 1))). now left.
  - apply (proj1 (proj2 (set_share_validation_order pizza_state "A" "Cola"
                           (PyStr "abc"))) HA HC). reflexivity.
  - apply (proj1 (proj1 (proj2 (proj2 (set_share_validation_order pizza_state
             "A" "Pizza" (PyStr "abc")))) HA HP pizza eq_refl)).
    exists ValueError. reflexivity.
  - apply (proj2 (proj1 (proj2 (proj2 (set_share_validation_order pizza_state
             "A" "Pizza" (PyFloat (-1))))) HA HP pizza eq_refl) (-1) eq_refl).
    reflexivity.
  - apply (proj2 (proj1 (proj2 (proj2 (set_share_validation_order pizza_state
             "A" "Pizza" (PyFloat 3)))) HA HP pizza eq_refl) 3 eq_refl);
      [discriminate | reflexivity].
  - apply (proj2 (proj1 (proj2 (proj2 (set_share_validation_order pizza_state
             "A" "Pizza" (PyFloat 2)))) HA HP pizza eq_refl) 2 eq_refl);
      discriminate.
Defined.

(** C6: the code at the failing input.  "Ghost" has no row; the call is
    refused for capacity, and the ledger has gained the key "Ghost". *)
Theorem set_share_refusal_leaves_row :
  let r := set_share pizza_state "Ghost" "Pizza" (PyFloat 5) in
  fst r = Ok (Some (NotEnoughAvailable "Pizza" "2"))
  /\ keys (shares pizza_state) = ["A"; "B"]
  /\ keys (shares (snd r)) = ["A"; "B"; "Ghost"]
  /\ snd r <> pizza_state.
Proof.
  repeat split. discriminate.
Qed.

(** C7: the code at the failing input.  A quantity that is not a number
    makes [assign_share] raise [ValueError]; [set_share] returns its message
    for the same argument. *)
Theorem assign_share_raises_on_text :
  fst (assign_share pizza_state "A" "Pizza" (PyStr "abc")) = Raise ValueError
  /\ snd (assign_share pizza_state "A" "Pizza" (PyStr "abc")) = pizza_state
  /\ fst (set_share pizza_state "A" "Pizza" (PyStr "abc"))
     = Ok (Some QtyMustBeNumber).
Proof.
  repeat split.
Qed.

Lemma has_share_false_of_zero st p :
  shares_nonneg st -> assigned_total st p == 0 -> has_share st p = false.
Proof.
  intros Hnn Hzero. unfold has_share. apply pyany_false.
  apply pysum_zero_all; [|exact Hzero].
  intros x Hin. unfold values in Hin.
  apply in_map_iff in Hin as [[item q] [<- Hin]]. simpl.
  rewrite row_of_get in Hin.
  destruct (get (shares st) p) as [row|] eqn:E; [|destruct Hin].
  exact (Hnn p row item q E Hin).
Qed.

Lemma has_share_of_positive st p item :
  0 < share_of st p item -> has_share st p = true.
Proof.
  unfold share_of, get_default, has_share. intros Hpos.
  destruct (get (row_of (shares st) p) item) as [q|] eqn:E; [|lra].
  apply pyany_true. exists q. split; [|lra].
  apply get_In in E. unfold values.
  change q with (snd (item, q)). now apply in_map.
Qed.

(** C5 (exclusion).  [all_totals] returns a mapping in which a participant
    of the roster whose total assigned quantity is zero has no entry, and
    every participant of the roster with a positive share of some item has
    one. *)
Theorem exclusion_property :
  forall st : state,
    rows_in_catalog st ->
    shares_nonneg st ->
    exists totals,
      all_totals st = Ok totals
      /\ forall p,
           In p (keys (people st)) ->
           (assigned_total st p == 0 -> get totals p = None)
           /\ ((exists item, 0 < share_of st p item) ->
               exists total, get totals p = Some total).
Proof.
  intros st Hcat Hnn.
  destruct (all_totals_spec st Hcat) as [subs [totals [_ [Ht [Hsub [_ Hget]]]]]].
  exists totals. split; [assumption|].
  intros p Hp. split.
  - intros Hzero. rewrite Hget, Hsub.
    assert (Hinc : is_included st p = false).
    { unfold is_included. rewrite (has_share_false_of_zero st p Hnn Hzero).
      apply andb_false_r. }
    now rewrite Hinc.
  - intros [item Hpos]. rewrite Hget, Hsub.
    assert (Hinc : is_included st p = true).
    { apply is_included_true. split; [assumption|].
      now apply has_share_of_positive with item. }
    rewrite Hinc. eauto.
Qed.

(** "Cy" joins the roster of [bill_state] and takes nothing *)
Lemma exclusion_property_witness :
  let st := add_person bill_state "Cy" EmptyString in
  exists totals,
    all_totals st = Ok totals
    /\ get totals "Cy" = None
    /\ exists total, get totals "Ann" = Some total.
Proof.
  intros st.
  assert (Hv : valid_state st) by apply add_person_valid, bill_state_valid.
  destruct (exclusion_property st (valid_rows st Hv) (valid_nonneg st Hv))
    as [totals [Ht H]].
  exists totals. split; [assumption|]. split.
  - apply (H "Cy"); [vm_compute; tauto | reflexivity].
  - apply (H "Ann"); [vm_compute; tauto|].
    exists "Burger". reflexivity.
Defined.

Lemma tax_share_value_cases sub total_sub tax_total :
  (0 < total_sub ->
   tax_share_value sub total_sub tax_total == sub / total_sub * tax_total)
  /\ (total_sub <= 0 -> tax_share_value sub total_sub tax_total == 0).
Proof.
  unfold tax_share_value. split; intros H.
  - apply Qlt_bool_iff in H. rewrite H. reflexivity.
  - apply Qlt_bool_false in H. rewrite H. reflexivity.
Qed.

Lemma all_totals_tax_share_spec st p :
  rows_in_catalog st -> wf (people st) ->
  all_totals_tax_share st p
  = Ok (if is_included st p
        then Some (tax_share_value (round2 (subtotal_of st p))
                                   (spec_total_sub st) (tax st))
        else None).
Proof.
  intros Hcat Hwf.
  destruct (all_totals_spec st Hcat) as [subs [totals [Hs [_ [Hsub [Hsum _]]]]]].
  unfold all_totals_tax_share. rewrite Hs. simpl.
  rewrite Hsub, (Hsum Hwf).
  destruct (is_included st p); [|reflexivity].
  now rewrite tax_share_expr_value.
Qed.

(** C2, as the specification states it, fails: the total that [all_totals]
    reports is rounded once more.  Ann has 1 of 3 teas at 1 each and the tax
    is 1: her tax share is 1/3 and her total is 1.33, not 1 + 1/3. *)
Lemma all_totals_total_is_rounded :
  exists totals total sub share,
    all_totals tea_state = Ok totals
    /\ get totals "Ann" = Some total
    /\ person_total tea_state "Ann" = Ok sub
    /\ all_totals_tax_share tea_state "Ann" = Ok (Some share)
    /\ share == round2 sub / spec_total_sub tea_state * tax tea_state
    /\ share == 1 # 3
    /\ total == 133 # 100
    /\ ~ total == round2 sub + share.
Proof.
  do 4 eexists.
  split; [vm_compute; reflexivity|].
  split; [vm_compute; reflexivity|].
  split; [vm_compute; reflexivity|].
  split; [vm_compute; reflexivity|].
  split; [vm_compute; reflexivity|].
  split; [vm_compute; reflexivity|].
  split; [vm_compute; reflexivity|].
  vm_compute. discriminate.
Qed.

(** C2, amended.  [all_totals] returns a mapping over exactly the included
    participants.  With totalSub the sum of their subtotals rounded to 2
    decimals, the tax share of an included participant is
    round2(subtotal) / totalSub * taxTotal when totalSub > 0 and 0
    otherwise, and the total reported is round2(subtotal) plus that tax
    share, rounded to 2 decimals.  In the Burger and Fries scenario the
    subtotals are 10000 and 5000, the tax shares 1000 and 500, the totals
    11000 and 5500. *)
Theorem all_totals_tax_distribution :
  (forall st : state,
      rows_in_catalog st -> wf (people st) ->
      exists totals,
        all_totals st = Ok totals
        /\ forall p,
             (is_included st p = false -> get totals p = None)
             /\ (is_included st p = true ->
                 exists t share total,
                   person_total st p = Ok t
                   /\ all_totals_tax_share st p = Ok (Some share)
                   /\ get totals p = Some total
                   /\ (0 < spec_total_sub st ->
                       share == round2 t / spec_total_sub st * tax st)
                   /\ (spec_total_sub st <= 0 -> share == 0)
                   /\ total == round2 (round2 t + share)))
  /\ (exists sub_ann sub_bo tax_ann tax_bo total_ann total_bo,
         person_total bill_state "Ann" = Ok sub_ann
         /\ person_total bill_state "Bo" = Ok sub_bo
         /\ all_totals_tax_share bill_state "Ann" = Ok (Some tax_ann)
         /\ all_totals_tax_share bill_state "Bo" = Ok (Some tax_bo)
         /\ all_totals bill_state = Ok [("Ann", total_ann); ("Bo", total_bo)]
         /\ sub_ann == 10000 /\ sub_bo == 5000
         /\ tax_ann == 1000 /\ tax_bo == 500
         /\ total_ann == 11000 /\ total_bo == 5500).
Proof.
  split.
  - intros st Hcat Hwf.
    destruct (all_totals_spec st Hcat)
      as [subs [totals [_ [Ht [Hsub [Hsum Hget]]]]]].
    exists totals. split; [assumption|].
    intros p. split; intros Hinc.
    + now rewrite Hget, Hsub, Hinc.
    + exists (subtotal_of st p).
      exists (tax_share_value (round2 (subtotal_of st p)) (spec_total_sub st)
                              (tax st)).
      eexists.
      split; [now apply person_total_subtotal_of|].
      split; [rewrite all_totals_tax_share_spec by assumption; now rewrite Hinc|].
      split; [rewrite Hget, Hsub, Hinc, (Hsum Hwf); reflexivity|].
      split; [apply tax_share_value_cases|].
      split; [apply tax_share_value_cases | reflexivity].
  - do 6 eexists. repeat split; vm_compute; reflexivity.
Qed.

Lemma all_totals_tax_distribution_witness :
  exists totals,
    all_totals bill_state = Ok totals
    /\ exists t share total,
         person_total bill_state "Bo" = Ok t
         /\ all_totals_tax_share bill_state "Bo" = Ok (Some share)
         /\ get totals "Bo" = Some total
         /\ total == round2 (round2 t + share).
Proof.
  destruct (proj1 all_totals_tax_distribution bill_state
              (valid_rows _ bill_state_valid) (valid_people _ bill_state_valid))
    as [totals [Ht H]].
  exists totals. split; [assumption|].
  destruct (proj2 (H "Bo") eq_refl)
    as [t [share [total [H1 [H2 [H3 [_ [_ H6]]]]]]]].
  exists t, share, total. auto.
Defined.



(** * Further properties of the code *)

(** ** The structure of the session state *)

Lemma valid_well_formed st : valid_state st -> well_formed st.
Proof.
  intros [Hi Hp Hl Hc Hn _]. constructor; assumption.
Qed.

Lemma ledger_row_wf sh p : ledger_wf sh -> wf (row_of sh p).
Proof.
  intros [_ H]. rewrite row_of_get.
  destruct (get sh p) eqn:E; [eauto | apply wf_nil].
Qed.

Lemma catalog_row_of st p item :
  rows_in_catalog st ->
  contains (row_of (shares st) p) item = true -> contains (items st) item = true.
Proof.
  intros H. rewrite row_of_get.
  destruct (get (shares st) p) eqn:E; [now apply (H p) | discriminate].
Qed.

Lemma nonneg_row_of st p item q :
  shares_nonneg st -> In (item, q) (row_of (shares st) p) -> 0 <= q.
Proof.
  intros H. rewrite row_of_get.
  destruct (get (shares st) p) eqn:E; [now apply (H p) | intros []].
Qed.

Lemma well_formed_set_row st p r :
  well_formed st ->
  wf r ->
  (forall item, contains r item = true -> contains (items st) item = true) ->
  (forall item q, In (item, q) r -> 0 <= q) ->
  well_formed (with_shares st (set (shares st) p r)).
Proof.
  intros [Hi Hp [Hl Hrows] Hc Hn] Hwf Hcat Hnn.
  constructor; simpl; auto.
  - split; [now apply wf_set|].
    intros p0 row. rewrite get_set.
    destruct (String.eqb p p0); [intros [= <-]; assumption | apply Hrows].
  - intros p0 row item. simpl. rewrite get_set.
    destruct (String.eqb p p0); [intros [= <-]; apply Hcat | apply Hc].
  - intros p0 row item q. simpl. rewrite get_set.
    destruct (String.eqb p p0); [intros [= <-]; apply Hnn | apply Hn].
Qed.

Lemma well_formed_touch st p : well_formed st -> well_formed (touch st p).
Proof.
  intros H. rewrite touch_as_set. apply well_formed_set_row; [assumption| | |].
  - apply ledger_row_wf, (wfd_ledger st H).
  - intros item. apply catalog_row_of, (wfd_rows st H).
  - intros item q. apply nonneg_row_of, (wfd_nonneg st H).
Qed.

Lemma well_formed_store st p item q :
  well_formed st -> contains (items st) item = true -> 0 <= q ->
  well_formed
    (with_shares st (set (shares st) p (set (row_of (shares st) p) item q))).
Proof.
  intros H Hitem Hq. apply well_formed_set_row; [assumption| | |].
  - apply wf_set, ledger_row_wf, (wfd_ledger st H).
  - intros item0. destruct (String.eqb_spec item item0) as [<-|Hne].
    + intros _. assumption.
    + unfold contains. rewrite get_set_other by assumption.
      apply catalog_row_of, (wfd_rows st H).
  - intros item0 q0 Hin. apply In_set in Hin as [[_ ->]|Hin]; [assumption|].
    eapply nonneg_row_of; [apply (wfd_nonneg st H) | eassumption].
Qed.

Lemma set_share_well_formed st person item qty0 :
  well_formed st -> well_formed (snd (set_share st person item qty0)).
Proof.
  intros Hv. unfold set_share.
  destruct (negb (truthy_str person) || negb (truthy_str item))%bool; [assumption|].
  destruct (contains (items st) item) eqn:Hitem; simpl; [|assumption].
  destruct (pyfloat qty0) as [q|]; [|assumption].
  destruct (Qlt_bool q 0) eqn:Hneg; [assumption|].
  rewrite (shares_getitem_eta (shares st) person).
  destruct (remaining_qty _ item) as [remaining|] eqn:Hrem; simpl;
    [|now apply well_formed_touch].
  destruct (Qlt_bool (remaining + _) q) eqn:Hcap; simpl;
    [now apply well_formed_touch|].
  rewrite store_share_touched.
  apply Qlt_bool_false in Hneg. now apply well_formed_store.
Qed.

Lemma assign_share_well_formed st person item qty0 :
  well_formed st -> well_formed (snd (assign_share st person item qty0)).
Proof.
  intros Hv. unfold assign_share.
  destruct (negb (truthy_str person) || negb (truthy_str item))%bool; [assumption|].
  destruct (contains (items st) item) eqn:Hitem; simpl; [|assumption].
  destruct (pyfloat qty0) as [q|]; [|assumption].
  destruct (Qle_bool q 0) eqn:Hpos; [assumption|].
  destruct (remaining_qty st item) as [remaining|] eqn:Hrem; simpl; [|assumption].
  destruct (Qlt_bool remaining q) eqn:Hcap; simpl; [assumption|].
  rewrite (shares_getitem_eta (shares st) person).
  rewrite store_share_touched.
  apply Qle_bool_false in Hpos.
  assert (0 <= get_default (row_of (shares st) person) item 0) as Hold.
  { unfold get_default.
    destruct (get (row_of (shares st) person) item) eqn:E; [|lra].
    apply get_In in E. eapply nonneg_row_of; [apply (wfd_nonneg st Hv)|eassumption]. }
  apply well_formed_store; auto. lra.
Qed.

Lemma add_item_well_formed st item qty0 price0 :
  well_formed st -> well_formed (snd (add_item st item qty0 price0)).
Proof.
  intros Hv. unfold add_item.
  destruct (negb (truthy_str item)); [assumption|].
  destruct (pyfloat qty0) as [q|]; simpl; [|assumption].
  destruct (pyfloat price0) as [pr|]; simpl; [|assumption].
  assert (Hgoal : well_formed
            (with_items st (set (items st) item {| qty := q; total_price := pr |}))).
  { destruct Hv as [Hi Hp Hl Hc Hn].
    constructor; simpl; auto.
    - now apply wf_set.
    - intros p row item0 Hrow Hin. simpl in *.
      unfold contains. rewrite get_set.
      destruct (String.eqb item item0); [reflexivity|].
      apply (Hc p row item0 Hrow Hin). }
  destruct (contains (items st) item); exact Hgoal.
Qed.

Lemma add_person_well_formed st person mail :
  well_formed st -> well_formed (add_person st person mail).
Proof.
  intros Hv. unfold add_person.
  destruct (negb (truthy_str person)); [assumption|].
  apply well_formed_touch.
  destruct Hv as [Hi Hp Hl Hc Hn].
  constructor; simpl; auto. now apply wf_set.
Qed.

Lemma update_loop_well_formed person newq item_keys : forall st errs,
  well_formed st -> well_formed (snd (update_loop st person newq item_keys errs)).
Proof.
  induction item_keys as [|item rest IH]; intros st errs Hv; simpl; [assumption|].
  pose proof (set_share_well_formed st person item (PyFloat (newq item)) Hv) as H.
  destruct (set_share st person item (PyFloat (newq item))) as [[[m|]|e] st1];
    simpl in H; auto.
Qed.

Lemma apply_action_well_formed st a :
  well_formed st -> well_formed (apply_action st a).
Proof.
  intros Hv. destruct a; simpl.
  - unfold add_payment_account.
    destruct (truthy_str (strip label0) && truthy_str (strip detail0))%bool;
      [|assumption].
    destruct Hv. constructor; assumption.
  - now apply add_item_well_formed.
  - now apply add_person_well_formed.
  - now apply assign_share_well_formed.
  - now apply update_loop_well_formed.
  - destruct Hv. constructor; assumption.
  - constructor; simpl; try apply wf_nil.
    + split; [apply wf_nil | discriminate].
    + discriminate.
    + discriminate.
Qed.

Lemma run_actions_well_formed actions : forall st,
  well_formed st -> well_formed (run_actions st actions).
Proof.
  induction actions as [|a actions IH]; intros st Hv; simpl; [assumption|].
  apply IH. now apply apply_action_well_formed.
Qed.

(** ** No fault in the settlement of a session *)

Lemma item_lines_total st entries :
  (forall item q, In (item, q) entries -> contains (items st) item = true) ->
  (exists l, email_item_lines st entries = Ok l)
  /\ (exists l, image_item_lines st entries = Ok l).
Proof.
  induction entries as [|[item q] entries IH]; intros H; simpl.
  - eauto.
  - assert (Hc : contains (items st) item = true) by (eapply H; now left).
    apply contains_true_get in Hc as [data Hget].
    rewrite (unit_price_known _ _ _ Hget). simpl.
    destruct IH as [[l1 ->] [l2 ->]]; [intros; eapply H; right; eauto|]. simpl.
    split; [destruct (Qlt_bool 0 q) | destruct (Qle_bool q 0)]; eauto.
Qed.

Lemma row_entries_in_catalog st p item q :
  rows_in_catalog st -> In (item, q) (row_of (shares st) p) ->
  contains (items st) item = true.
Proof.
  intros Hc Hin. apply (catalog_row_of st p item Hc).
  apply contains_keys. change item with (fst (item, q)). now apply in_map.
Qed.

Lemma image_person_lines_total st totals :
  rows_in_catalog st -> exists l, image_person_lines st totals = Ok l.
Proof.
  intros Hc. induction totals as [|[person total] totals [l IH]]; simpl; [eauto|].
  destruct (item_lines_total st (row_of (shares st) person))
    as [_ [l2 ->]].
  { intros item q. now apply row_entries_in_catalog. }
  simpl. rewrite IH. simpl. eauto.
Qed.

Lemma person_breakdown_loop_total st entries :
  (forall item q, In (item, q) entries -> contains (items st) item = true) ->
  exists l, person_breakdown_loop st entries = Ok l.
Proof.
  induction entries as [|[item q] entries IH]; intros H; simpl; [eauto|].
  assert (Hc : contains (items st) item = true) by (eapply H; now left).
  apply contains_true_get in Hc as [data Hget].
  rewrite (unit_price_known _ _ _ Hget). simpl.
  destruct IH as [l ->]; [intros; eapply H; right; eauto|]. simpl.
  destruct (Qle_bool q 0); eauto.
Qed.

Lemma build_email_body_total st person :
  rows_in_catalog st -> exists body, build_email_body st person = Ok body.
Proof.
  intros Hc. unfold build_email_body, email_tax_split.
  rewrite (person_total_subtotal_of st person Hc). simpl.
  destruct (item_lines_total st (row_of (shares st) person)) as [[l ->] _].
  { intros item q. now apply row_entries_in_catalog. }
  simpl. rewrite (included_subtotals_map st Hc). simpl.
  rewrite tax_share_expr_value. simpl. eauto.
Qed.

(** X1.  Whatever the user does, in whatever order and with whatever
    input, the session state stays well formed and the settlement functions
    return: [all_totals], the lines of the bill image, and for every name
    [person_total], [person_breakdown] and [build_email_body]; for every
    catalog item [unit_price] and [remaining_qty] return as well. *)
Theorem session_settlement_never_raises :
  forall actions : list action,
    let st := run_actions initial_state actions in
    well_formed st
    /\ (exists totals lines,
           all_totals st = Ok totals /\ bill_image_lines st totals = Ok lines)
    /\ (forall person,
           (exists t, person_total st person = Ok t)
           /\ (exists b, person_breakdown st person = Ok b)
           /\ (exists body, build_email_body st person = Ok body))
    /\ (forall item,
           In item (keys (items st)) ->
           exists up r, unit_price st item = Ok up /\ remaining_qty st item = Ok r).
Proof.
  intros actions st.
  assert (Hwf : well_formed st).
  { apply run_actions_well_formed, valid_well_formed, initial_state_valid. }
  pose proof (wfd_rows st Hwf) as Hc.
  split; [assumption|]. split; [|split].
  - destruct (all_totals_spec st Hc) as [subs [totals [_ [Ht _]]]].
    exists totals. unfold bill_image_lines.
    destruct (image_person_lines_total st totals Hc) as [l ->].
    simpl. eauto.
  - intros person. split; [now apply person_total_total|]. split.
    + apply person_breakdown_loop_total.
      intros item q. now apply row_entries_in_catalog.
    + now apply build_email_body_total.
  - intros item Hin. apply contains_keys in Hin.
    destruct (contains_true_get _ _ Hin) as [data Hget].
    rewrite (unit_price_known _ _ _ Hget).
    destruct (remaining_qty_known st item Hin) as [r ->]. eauto.
Qed.

Lemma session_settlement_never_raises_witness :
  exists up r,
    unit_price (run_actions initial_state
                  [AddItem "Tea" (PyStr "3") (PyStr "4.5"); AddPerson "Ann" "a@x";
                   Assign "Ann" "Tea" (PyFloat 1); Assign "Ann" "Tea" (PyStr "oops")])
               "Tea" = Ok up
    /\ remaining_qty (run_actions initial_state
                  [AddItem "Tea" (PyStr "3") (PyStr "4.5"); AddPerson "Ann" "a@x";
                   Assign "Ann" "Tea" (PyFloat 1); Assign "Ann" "Tea" (PyStr "oops")])
               "Tea" = Ok r.
Proof.
  apply (proj2 (proj2 (proj2 (session_settlement_never_raises
           [AddItem "Tea" (PyStr "3") (PyStr "4.5"); AddPerson "Ann" "a@x";
            Assign "Ann" "Tea" (PyFloat 1); Assign "Ann" "Tea" (PyStr "oops")])))).
  vm_compute. tauto.
Defined.

(** ** The catalog: [add_item] *)

Lemma add_item_parsed st item qty0 price0 q pr :
  item <> EmptyString -> pyfloat qty0 = Ok q -> pyfloat price0 = Ok pr ->
  add_item st item qty0 price0
  = ((true, if contains (items st) item then ItemUpdated item else ItemAdded item),
     with_items st (set (items st) item {| qty := q; total_price := pr |})).
Proof.
  intros Hn Hq Hp. unfold add_item. rewrite Hq, Hp. simpl.
  destruct item; [congruence|]. simpl.
  now destruct (contains (items st) (String a item)).
Qed.

(** X2.  [add_item] succeeds exactly when the name is not empty and both
    numbers parse; there is no sign check, a negative quantity or price is
    taken as it is.  On success the catalog maps the name to the parsed
    numbers, every other item is as before, a known name keeps its place and
    a new one goes last, and the roster, the allocations and the tax are not
    touched.  On failure the state is unchanged. *)
Theorem add_item_upsert :
  forall (st : state) (item : string) (qty0 price0 : pyval),
    let r := add_item st item qty0 price0 in
    (fst (fst r) = true <->
     item <> EmptyString
     /\ exists q pr, pyfloat qty0 = Ok q /\ pyfloat price0 = Ok pr)
    /\ (fst (fst r) = false -> snd r = st)
    /\ (forall q pr,
           item <> EmptyString -> pyfloat qty0 = Ok q -> pyfloat price0 = Ok pr ->
           get (items (snd r)) item = Some {| qty := q; total_price := pr |}
           /\ (forall other, other <> item ->
                             get (items (snd r)) other = get (items st) other)
           /\ keys (items (snd r))
              = (if contains (items st) item then keys (items st)
                 else keys (items st) ++ [item])%list
           /\ snd (fst r)
              = (if contains (items st) item then ItemUpdated item
                 else ItemAdded item)
           /\ people (snd r) = people st
           /\ shares (snd r) = shares st
           /\ tax (snd r) = tax st).
Proof.
  intros st item qty0 price0 r. subst r. split; [|split].
  - split.
    + unfold add_item. destruct item as [|c item]; [discriminate|]. simpl.
      destruct (pyfloat qty0) as [q|]; simpl; [|discriminate].
      destruct (pyfloat price0) as [pr|]; simpl; [|discriminate].
      intros _. split; [discriminate | eauto].
    + intros [Hn [q [pr [Hq Hp]]]].
      now rewrite (add_item_parsed st item qty0 price0 q pr Hn Hq Hp).
  - unfold add_item. destruct (negb (truthy_str item)); [reflexivity|].
    destruct (pyfloat qty0) as [q|]; simpl; [|reflexivity].
    destruct (pyfloat price0) as [pr|]; simpl; [|reflexivity].
    destruct (contains (items st) item); discriminate.
  - intros q pr Hn Hq Hp.
    rewrite (add_item_parsed st item qty0 price0 q pr Hn Hq Hp). simpl.
    split; [apply get_set_same|].
    split; [intros other Hne; apply get_set_other; congruence|].
    split; [apply keys_set|]. repeat split.
Qed.

Lemma add_item_upsert_witness :
  get (items (snd (add_item pizza_state "Pizza" (PyStr "-1") (PyFloat 5)))) "Pizza"
  = Some {| qty := -1; total_price := 5 |}
  /\ snd (add_item pizza_state "Pizza" (PyStr "many") (PyFloat 5)) = pizza_state.
Proof.
  split.
  - apply (proj2 (proj2 (add_item_upsert pizza_state "Pizza" (PyStr "-1")
                           (PyFloat 5))) (-1) 5);
      [discriminate | reflexivity | reflexivity].
  - apply (proj1 (proj2 (add_item_upsert pizza_state "Pizza" (PyStr "many")
                           (PyFloat 5)))). reflexivity.
Defined.

(** X3.  [add_item] is idempotent: a second call with the same arguments
    leaves the state that the first call produced, and after a successful
    first call it reports an update. *)
Theorem add_item_idempotent :
  forall (st : state) (item : string) (qty0 price0 : pyval),
    let r1 := add_item st item qty0 price0 in
    let r2 := add_item (snd r1) item qty0 price0 in
    snd r2 = snd r1
    /\ fst r2 = (if fst (fst r1) then (true, ItemUpdated item) else fst r1).
Proof.
  intros st item qty0 price0. unfold add_item.
  destruct item as [|c item]; [split; reflexivity|]. cbn [truthy_str negb].
  destruct (pyfloat qty0) as [q|]; simpl; [|split; reflexivity].
  destruct (pyfloat price0) as [pr|]; simpl; [|split; reflexivity].
  set (data := {| qty := q; total_price := pr |}).
  assert (Hc : contains (set (items st) (String c item) data) (String c item) = true)
    by (unfold contains; now rewrite get_set_same).
  destruct (contains (items st) (String c item)); simpl; rewrite Hc; simpl;
    (split; [|reflexivity]); unfold with_items; simpl; f_equal; apply set_set_same.
Qed.

Lemma oversold_base_valid :
  valid_state
    (snd (set_share
            (add_person
               (snd (add_item initial_state "Pizza" (PyFloat 3) (PyFloat 30)))
               "A" EmptyString)
            "A" "Pizza" (PyFloat 3))).
Proof.
  apply set_share_valid, add_person_valid.
  apply add_item_valid_fresh;
    [apply initial_state_valid | reflexivity | discriminate].
Qed.

(** X4.  [add_item] does not look at the allocations.  Re-adding an item
    of a valid state keeps the state valid exactly when the new quantity
    covers what is already assigned; in every case the remaining quantity
    becomes the new quantity minus the assigned amount, negative when the
    quantity was lowered below it. *)
Theorem add_item_conservation :
  forall (st : state) (item : string) (q pr : Q),
    valid_state st ->
    item <> EmptyString ->
    let st' := snd (add_item st item (PyFloat q) (PyFloat pr)) in
    (valid_state st' <-> total_assigned st item <= q + epsilon)
    /\ remaining_qty st' item = Ok (q - used_qty st item).
Proof.
  intros st item q pr Hv Hn st'. subst st'.
  rewrite (add_item_parsed st item (PyFloat q) (PyFloat pr) q pr Hn eq_refl eq_refl).
  simpl. split; [split|].
  - intros Hv'.
    apply (valid_conserved _ Hv' item {| qty := q; total_price := pr |}).
    simpl. apply get_set_same.
  - intros Hfit. destruct Hv as [Hi Hp Hl Hc Hnn Hcons].
    constructor; simpl; auto.
    + now apply wf_set.
    + intros p row item0 Hrow Hin. simpl in *.
      unfold contains. rewrite get_set.
      destruct (String.eqb item item0); [reflexivity|].
      apply (Hc p row item0 Hrow Hin).
    + intros item0 data. simpl. rewrite get_set.
      destruct (String.eqb_spec item item0) as [<-|Hne].
      * intros [= <-]. exact Hfit.
      * apply Hcons.
  - unfold remaining_qty, getitem. simpl. now rewrite get_set_same.
Qed.

Lemma add_item_conservation_witness :
  ~ valid_state oversold_state
  /\ exists r, remaining_qty oversold_state "Pizza" = Ok r /\ r == -1.
Proof.
  assert (Hn : "Pizza" <> EmptyString) by discriminate.
  destruct (add_item_conservation _ "Pizza" 2 20 oversold_base_valid Hn)
    as [[Hto _] Hrem].
  split.
  - intros Hv. apply Hto in Hv. vm_compute in Hv. apply Hv. reflexivity.
  - eexists. split; [exact Hrem | reflexivity].
Defined.

(** ** The roster: [add_person] *)

Lemma row_of_touched sh p p' : row_of (snd (shares_getitem sh p)) p' = row_of sh p'.
Proof.
  rewrite (row_of_get (snd _)).
  destruct (String.eqb_spec p p') as [<-|Hne].
  - now rewrite get_touched.
  - rewrite get_touched_other by assumption. symmetry. apply row_of_get.
Qed.

(** X5.  [add_person] with a non-empty name records the stripped e-mail
    under the name, gives the person a row in the ledger, and changes no
    assigned quantity, no other roster entry and no item; re-adding a person
    therefore keeps what the person has been assigned.  With an empty name
    nothing happens. *)
Theorem add_person_effect :
  forall (st : state) (person mail : string),
    let st' := add_person st person mail in
    (person = EmptyString -> st' = st)
    /\ (person <> EmptyString ->
        get (people st') person = Some {| email := strip mail |}
        /\ contains (shares st') person = true
        /\ (forall other, other <> person ->
                          get (people st') other = get (people st) other)
        /\ (forall p item, share_of st' p item = share_of st p item)
        /\ items st' = items st
        /\ tax st' = tax st).
Proof.
  intros st person mail st'. subst st'. split.
  - intros ->. reflexivity.
  - intros Hn. unfold add_person.
    destruct person as [|c person]; [congruence|]. cbn [truthy_str negb].
    unfold touch. simpl.
    split; [apply get_set_same|].
    split; [unfold contains; now rewrite get_touched|].
    split; [intros other Hne; apply get_set_other; congruence|].
    split; [|split; reflexivity].
    intros p item. unfold share_of. simpl. now rewrite row_of_touched.
Qed.

Lemma add_person_effect_witness :
  share_of (add_person bill_state "Ann" " ann@example.org ") "Ann" "Burger"
  = share_of bill_state "Ann" "Burger"
  /\ get (people (add_person bill_state "Ann" " ann@example.org ")) "Ann"
     = Some {| email := "ann@example.org" |}
  /\ add_person bill_state EmptyString "x" = bill_state.
Proof.
  assert (Hn : "Ann" <> EmptyString) by discriminate.
  destruct (proj2 (add_person_effect bill_state "Ann" " ann@example.org ") Hn)
    as [H1 [_ [_ [H4 _]]]].
  split; [apply H4|]. split; [exact H1|].
  apply (proj1 (add_person_effect bill_state EmptyString "x")). reflexivity.
Defined.

(** X6.  [add_person] is idempotent: adding the same person with the same
    e-mail twice gives the state of adding once. *)
Theorem add_person_idempotent :
  forall (st : state) (person mail : string),
    add_person (add_person st person mail) person mail = add_person st person mail.
Proof.
  intros st person mail. unfold add_person.
  destruct person as [|c person]; [reflexivity|]. cbn [truthy_str negb].
  set (n := String c person).
  set (st1 := touch (with_people st (set (people st) n {| email := strip mail |})) n).
  assert (Hrow : contains (shares st1) n = true).
  { unfold st1, touch, contains. simpl. now rewrite get_touched. }
  assert (Hp : with_people st1 (set (people st1) n {| email := strip mail |}) = st1).
  { unfold st1, touch, with_people, with_shares. simpl. f_equal.
    apply set_set_same. }
  rewrite Hp. now apply touch_present.
Qed.

(** ** The ledger: what the two allocation operations write *)

Lemma set_share_success st person item qty0 :
  fst (set_share st person item qty0) = Ok None ->
  exists q data,
    pyfloat qty0 = Ok q /\ 0 <= q
    /\ person <> EmptyString /\ item <> EmptyString
    /\ get (items st) item = Some data
    /\ q <= qty data - used_qty st item + share_of st person item
    /\ snd (set_share st person item qty0)
       = with_shares st (set (shares st) person
                           (set (row_of (shares st) person) item q)).
Proof.
  unfold set_share.
  destruct person as [|c person]; [discriminate|].
  destruct item as [|c' item]; [discriminate|].
  cbn [truthy_str negb orb].
  destruct (contains (items st) (String c' item)) eqn:Hitem; cbn [negb];
    [|discriminate].
  destruct (pyfloat qty0) as [q|]; [|discriminate].
  destruct (Qlt_bool q 0) eqn:Hneg; [discriminate|].
  rewrite (shares_getitem_eta (shares st)).
  apply contains_true_get in Hitem as [data Hget].
  destruct (remaining_qty_touched st (String c person) (String c' item) data Hget)
    as [r [-> Hr]].
  destruct (Qlt_bool _ q) eqn:Hcap; [discriminate|]. simpl. intros _.
  exists q, data. rewrite store_share_touched.
  apply Qlt_bool_false in Hneg, Hcap. unfold share_of.
  repeat split; try assumption; try discriminate. lra.
Qed.

Lemma assign_share_success st person item qty0 :
  fst (assign_share st person item qty0) = Ok None ->
  exists q data,
    pyfloat qty0 = Ok q /\ 0 < q
    /\ person <> EmptyString /\ item <> EmptyString
    /\ get (items st) item = Some data
    /\ q <= qty data - used_qty st item
    /\ snd (assign_share st person item qty0)
       = with_shares st (set (shares st) person
                           (set (row_of (shares st) person) item
                                (share_of st person item + q))).
Proof.
  unfold assign_share.
  destruct person as [|c person]; [discriminate|].
  destruct item as [|c' item]; [discriminate|].
  cbn [truthy_str negb orb].
  destruct (contains (items st) (String c' item)) eqn:Hitem; cbn [negb];
    [|discriminate].
  destruct (pyfloat qty0) as [q|]; [|discriminate].
  destruct (Qle_bool q 0) eqn:Hpos; [discriminate|].
  apply contains_true_get in Hitem as [data Hget].
  unfold remaining_qty, getitem. rewrite Hget. simpl.
  destruct (Qlt_bool _ q) eqn:Hcap; [discriminate|].
  rewrite (shares_getitem_eta (shares st)). simpl. intros _.
  exists q, data. rewrite store_share_touched.
  apply Qle_bool_false in Hpos. apply Qlt_bool_false in Hcap.
  repeat split; try assumption; discriminate.
Qed.

Lemma share_of_stored st person item q p i :
  share_of (with_shares st (set (shares st) person
                              (set (row_of (shares st) person) item q))) p i
  = if (String.eqb person p && String.eqb item i)%bool then q else share_of st p i.
Proof.
  unfold share_of. simpl. rewrite (row_of_get (set _ _ _)), get_set.
  destruct (String.eqb_spec person p) as [<-|Hne]; simpl.
  - unfold get_default. rewrite get_set.
    now destruct (String.eqb item i).
  - now rewrite <- row_of_get.
Qed.


Lemma share_of_touch st person p i : share_of (touch st person) p i = share_of st p i.
Proof.
  unfold share_of, touch. simpl. now rewrite row_of_touched.
Qed.

(** X10.  A refused allocation writes nothing.  When [assign_share] does
    not succeed (it returns a message or raises) the state is the one before
    the call.  When [set_share] does not succeed, the items, the roster, the
    tax and every assigned quantity are as before, and the whole state is
    unchanged if the person already had a row in the ledger. *)
Theorem refused_allocation_writes_nothing :
  forall (st : state) (person item : string) (qty0 : pyval),
    (fst (assign_share st person item qty0) <> Ok None ->
     snd (assign_share st person item qty0) = st)
    /\ (fst (set_share st person item qty0) <> Ok None ->
        let st' := snd (set_share st person item qty0) in
        items st' = items st /\ people st' = people st /\ tax st' = tax st
        /\ (forall p i, share_of st' p i = share_of st p i)
        /\ (forall i, total_assigned st' i == total_assigned st i)
        /\ (contains (shares st) person = true -> st' = st)).
Proof.
  intros st person item qty0. split.
  - apply assign_share_refused_unchanged.
  - intros Hfail st'. subst st'.
    destruct (set_share_refused_state st person item qty0 Hfail) as [-> | ->].
    + repeat split; try reflexivity.
    + repeat split; try reflexivity.
      * intros p i. apply share_of_touch.
      * intros i. apply total_assigned_touch.
      * apply touch_present.
Qed.

Lemma refused_allocation_writes_nothing_witness :
  snd (assign_share pizza_state "A" "Pizza" (PyFloat 3)) = pizza_state
  /\ snd (set_share pizza_state "A" "Pizza" (PyFloat 3)) = pizza_state.
Proof.
  split.
  - apply (proj1 (refused_allocation_writes_nothing pizza_state "A" "Pizza"
                    (PyFloat 3))). discriminate.
  - apply (proj2 (refused_allocation_writes_nothing pizza_state "A" "Pizza"
                    (PyFloat 3))); [discriminate | reflexivity].
Defined.



(** ** The update button *)

Lemma set_share_other_share st person item qty0 p i :
  p <> person \/ i <> item ->
  share_of (snd (set_share st person item qty0)) p i = share_of st p i.
Proof.
  intros Hne.
  destruct (set_share_returns st person item qty0) as [[m|] Hm].
  - assert (Hfail : fst (set_share st person item qty0) <> Ok None) by congruence.
    destruct (set_share_refused_state st person item qty0 Hfail) as [-> | ->];
      [reflexivity | apply share_of_touch].
  - destruct (set_share_success st person item qty0 Hm)
      as [q [data [_ [_ [_ [_ [_ [_ ->]]]]]]]].
    rewrite share_of_stored.
    destruct (String.eqb_spec person p) as [<-|]; [|reflexivity].
    destruct (String.eqb_spec item i) as [<-|]; [|reflexivity].
    destruct Hne; congruence.
Qed.

Lemma set_share_float_outcome st person item q :
  (fst (set_share st person item (PyFloat q)) = Ok None
   /\ share_of (snd (set_share st person item (PyFloat q))) person item = q)
  \/ (exists m, fst (set_share st person item (PyFloat q)) = Ok (Some m)
                /\ share_of (snd (set_share st person item (PyFloat q))) person item
                   = share_of st person item).
Proof.
  destruct (set_share_returns st person item (PyFloat q)) as [[m|] Hm].
  - right. exists m. split; [assumption|].
    assert (Hfail : fst (set_share st person item (PyFloat q)) <> Ok None)
      by congruence.
    destruct (set_share_refused_state st person item (PyFloat q) Hfail)
      as [-> | ->]; [reflexivity | apply share_of_touch].
  - left. split; [assumption|].
    destruct (set_share_success st person item (PyFloat q) Hm)
      as [q' [data [Hq [_ [_ [_ [_ [_ ->]]]]]]]].
    injection Hq as <-. rewrite share_of_stored, !String.eqb_refl. reflexivity.
Qed.

Lemma update_loop_outcome person newq item_keys : forall st errs,
  NoDup item_keys ->
  exists errs',
    fst (update_loop st person newq item_keys errs) = Ok (errs ++ errs')%list
    /\ (forall item,
           In item item_keys ->
           (In item (map fst errs')
            /\ share_of (snd (update_loop st person newq item_keys errs)) person item
               = share_of st person item)
           \/ (~ In item (map fst errs')
               /\ share_of (snd (update_loop st person newq item_keys errs))
                           person item = newq item))
    /\ (forall item, In item (map fst errs') -> In item item_keys)
    /\ (forall p i,
           p <> person \/ ~ In i item_keys ->
           share_of (snd (update_loop st person newq item_keys errs)) p i
           = share_of st p i).
Proof.
  induction item_keys as [|item rest IH]; intros st errs Hnd; simpl.
  - exists []. rewrite app_nil_r. repeat split; tauto.
  - inversion Hnd as [|? ? Hnotin Hnd']; subst.
    pose proof (set_share_float_outcome st person item (newq item)) as Hout.
    pose proof (fun p i => set_share_other_share st person item
                             (PyFloat (newq item)) p i) as Hother.
    destruct (set_share st person item (PyFloat (newq item))) as [[[m|]|e] st1];
      simpl in Hout, Hother.
    + destruct Hout as [[Hbad _]|[m' [_ Hsame]]]; [discriminate|].
      destruct (IH st1 (errs ++ [(item, m)])%list Hnd')
        as [errs' [Hfst [Hin [Hsub Hrest]]]].
      exists ((item, m) :: errs'). rewrite Hfst, <- app_assoc. simpl.
      split; [reflexivity|]. split; [|split].
      * intros i [<-|Hi].
        -- left. split; [now left|].
           rewrite Hrest by (right; assumption). assumption.
        -- destruct (Hin i Hi) as [[H1 H2]|[H1 H2]].
           ++ left. split; [now right|]. rewrite H2. apply Hother.
              right. intros <-. contradiction.
           ++ right. split; [|assumption].
              intros [<-|H]; [contradiction | contradiction].
      * intros i [<-|H]; [now left | right; auto].
      * intros p i Hne. rewrite Hrest by tauto. apply Hother.
        destruct Hne as [H|H]; [now left | right; intros <-; apply H; now left].
    + destruct Hout as [[_ Hnew]|[m' [Hbad _]]]; [|discriminate].
      destruct (IH st1 errs Hnd') as [errs' [Hfst [Hin [Hsub Hrest]]]].
      exists errs'. split; [assumption|]. split; [|split].
      * intros i [<-|Hi].
        -- right. split; [intros H; apply Hsub in H; contradiction|].
           rewrite Hrest by (right; assumption). assumption.
        -- destruct (Hin i Hi) as [[H1 H2]|[H1 H2]].
           ++ left. split; [assumption|]. rewrite H2. apply Hother.
              right. intros <-. contradiction.
           ++ right. split; assumption.
      * intros i H. right. auto.
      * intros p i Hne. rewrite Hrest by tauto. apply Hother.
        destruct Hne as [H|H]; [now left | right; intros <-; apply H; now left].
    + destruct Hout as [[Hbad _]|[m' [Hbad _]]]; discriminate.
Qed.

(** X12.  The update button is not all-or-nothing.  It returns the list
    of refusals and never raises; for every catalog item, either the item is
    among the refusals and the person's share of it is as before, or it is
    not and the share is the submitted value.  Shares of other people are
    untouched, and a well-formed state stays well formed. *)
Theorem update_assignments_outcome :
  forall (st : state) (person : string) (newq : string -> Q),
    wf (items st) ->
    let r := update_assignments st person newq in
    exists errs,
      fst r = Ok errs
      /\ (forall item,
             In item (keys (items st)) ->
             (In item (map fst errs)
              /\ share_of (snd r) person item = share_of st person item)
             \/ (~ In item (map fst errs)
                 /\ share_of (snd r) person item = newq item))
      /\ (forall p i, p <> person -> share_of (snd r) p i = share_of st p i)
      /\ (well_formed st -> well_formed (snd r)).
Proof.
  intros st person newq Hwf r. subst r. unfold update_assignments.
  destruct (update_loop_outcome person newq (keys (items st)) st [] Hwf)
    as [errs [Hfst [Hin [_ Hrest]]]].
  exists errs. split; [exact Hfst|]. split; [exact Hin|]. split.
  - intros p i Hne. apply Hrest. now left.
  - apply update_loop_well_formed.
Qed.

Lemma update_assignments_outcome_witness :
  exists errs,
    fst (update_assignments bill_state "Ann"
           (fun item => if String.eqb item "Burger" then 1 # 2 else 1)) = Ok errs
    /\ map fst errs = ["Fries"]
    /\ share_of (snd (update_assignments bill_state "Ann"
           (fun item => if String.eqb item "Burger" then 1 # 2 else 1)))
         "Ann" "Burger" = 1 # 2
    /\ share_of (snd (update_assignments bill_state "Ann"
           (fun item => if String.eqb item "Burger" then 1 # 2 else 1)))
         "Bo" "Fries" = share_of bill_state "Bo" "Fries".
Proof.
  destruct (update_assignments_outcome bill_state "Ann"
              (fun item => if String.eqb item "Burger" then 1 # 2 else 1)
              (valid_items _ bill_state_valid))
    as [errs [H1 [_ [H3 _]]]].
  exists errs. split; [exact H1|].
  split; [vm_compute in H1; injection H1 as <-; reflexivity|].
  split; [reflexivity|]. apply H3. discriminate.
Defined.

(** ** Settlement: closed form, order, sums *)

Lemma total_fold_app total_sub tax_total entries : forall acc,
  NoDup (keys entries) ->
  (forall k, In k (keys entries) -> ~ In k (keys acc)) ->
  fold_left (total_step total_sub tax_total) entries acc
  = (acc ++ map (fun e : string * Q =>
                   (fst e, round2 (snd e + tax_share_value (snd e) total_sub
                                                          tax_total)))
               entries)%list.
Proof.
  induction entries as [|[k sub] entries IH]; intros acc Hnd Hfresh; simpl.
  - now rewrite app_nil_r.
  - inversion Hnd as [|? ? Hnotin Hnd']; subst.
    unfold total_step at 2. simpl.
    rewrite set_fresh by (apply Hfresh; now left).
    rewrite IH; [now rewrite <- app_assoc | assumption |].
    intros k' Hin. unfold keys. rewrite map_app, in_app_iff. simpl.
    intros [H|[<-|[]]]; [|contradiction].
    apply (Hfresh k'); [now right | assumption].
Qed.

(** [all_totals] in closed form: one entry per included participant, in
    roster order *)
Lemma all_totals_closed_form st :
  rows_in_catalog st -> wf (people st) ->
  all_totals st
  = Ok (map (fun p =>
               (p, round2 (round2 (subtotal_of st p)
                           + tax_share_value (round2 (subtotal_of st p))
                                             (spec_total_sub st) (tax st))))
            (included st)).
Proof.
  intros Hcat Hwf. unfold all_totals, subtotals.
  rewrite (subtotals_loop_fold st Hcat). simpl.
  rewrite totals_loop_fold. f_equal.
  rewrite subtotal_fold_app by (assumption || intros p _ []). simpl.
  set (subs := map (fun p => (p, round2 (subtotal_of st p)))
                   (filter (has_share st) (keys (people st)))).
  assert (Hkeys : keys subs = included st).
  { unfold subs, keys, included. rewrite map_map. simpl. apply map_id. }
  assert (Hvals : pysum (values subs) = spec_total_sub st).
  { unfold subs, values, spec_total_sub, included. now rewrite map_map. }
  rewrite total_fold_app.
  - simpl. rewrite Hvals. unfold subs, included. rewrite map_map. reflexivity.
  - rewrite Hkeys. unfold included. now apply NoDup_filter.
  - intros k _ [].
Qed.

(** X13.  [all_totals] lists exactly the participants of the roster that
    hold a non-zero share, in the order in which they joined the roster.  A
    name that is not in the roster never appears, whatever has been
    allocated to it. *)
Theorem all_totals_keys_in_roster_order :
  forall st : state,
    rows_in_catalog st -> wf (people st) ->
    exists totals,
      all_totals st = Ok totals
      /\ keys totals = filter (has_share st) (keys (people st))
      /\ (forall p, ~ In p (keys (people st)) -> get totals p = None)
      /\ (totals = [] <-> forall p, In p (keys (people st)) -> has_share st p = false).
Proof.
  intros st Hcat Hwf. eexists. split; [now apply all_totals_closed_form|].
  split; [|split].
  - unfold keys. rewrite map_map. simpl. apply map_id.
  - intros p Hp. apply get_None_keys. unfold keys. rewrite map_map. simpl.
    rewrite map_id. unfold included. rewrite filter_In. tauto.
  - unfold included. split.
    + intros Hnil p Hp. destruct (has_share st p) eqn:E; [|reflexivity].
      apply map_eq_nil in Hnil.
      assert (Hin : In p (filter (has_share st) (keys (people st))))
        by (apply filter_In; auto).
      rewrite Hnil in Hin. destruct Hin.
    + intros Hnone.
      assert (Hf : filter (has_share st) (keys (people st)) = []).
      { destruct (filter (has_share st) (keys (people st))) as [|p l] eqn:E;
          [reflexivity|].
        assert (Hin : In p (filter (has_share st) (keys (people st))))
          by (rewrite E; now left).
        apply filter_In in Hin as [Hin Hs]. rewrite (Hnone p Hin) in Hs.
        discriminate. }
      now rewrite Hf.
Qed.

Lemma all_totals_keys_in_roster_order_witness :
  let st := snd (set_share bill_state "Ghost" "Burger" (PyFloat 0)) in
  exists totals,
    all_totals st = Ok totals
    /\ keys totals = ["Ann"; "Bo"]
    /\ get totals "Ghost" = None.
Proof.
  intros st.
  assert (Hv : valid_state st) by apply set_share_valid, bill_state_valid.
  destruct (all_totals_keys_in_roster_order st (valid_rows _ Hv)
              (valid_people _ Hv)) as [totals [H1 [H2 [H3 _]]]].
  exists totals. split; [exact H1|]. split; [exact H2|].
  apply H3. vm_compute. intuition discriminate.
Defined.

(** ** The e-mail and the table show the same total *)

Lemma round_half_even_nonneg x : 0 <= x -> (0 <= round_half_even x)%Z.
Proof.
  intros Hx. unfold round_half_even. cbv zeta.
  assert (Hf : (0 <= Qfloor x)%Z).
  { change 0%Z with (Qfloor 0). now apply Qfloor_resp_le. }
  destruct (Qcompare (x - inject_Z (Qfloor x)) (1 # 2));
    [destruct (Z.even (Qfloor x))| |]; lia.
Qed.

Lemma round2_nonneg x : 0 <= x -> 0 <= round2 x.
Proof.
  intros Hx. unfold round2.
  assert (H : (0 <= round_half_even (x * 100))%Z)
    by (apply round_half_even_nonneg; lra).
  assert (H' : 0 <= inject_Z (round_half_even (x * 100))).
  { change 0 with (inject_Z 0). now rewrite <- Zle_Qle. }
  set (n := inject_Z (round_half_even (x * 100))) in *.
  assert (Hn : n / 100 == n * (1 # 100)) by field.
  rewrite Hn. lra.
Qed.

Lemma round_half_even_round2 x :
  round_half_even (round2 x * 100) = round_half_even (x * 100).
Proof.
  rewrite (round_half_even_comp _ (inject_Z (round_half_even (x * 100)))).
  - apply round_half_even_Z.
  - unfold round2. field.
Qed.

(** a non-negative amount prints as its value rounded to cents *)
Lemma fmt_num_round2 x : 0 <= x -> fmt_num (round2 x) = fmt_num x.
Proof.
  intros Hx. unfold fmt_num, format_comma_2f.
  rewrite round_half_even_round2.
  assert (H1 : Qlt_bool x 0 = false) by now apply Qlt_bool_false.
  assert (H2 : Qlt_bool (round2 x) 0 = false)
    by now apply Qlt_bool_false, round2_nonneg.
  now rewrite H1, H2.
Qed.

(** the text of the e-mail, line by line *)
Lemma build_email_body_spec st p :
  rows_in_catalog st ->
  exists item_lines,
    email_item_lines st (row_of (shares st) p) = Ok item_lines
    /\ build_email_body st p
       = Ok (join newline
               ((restaurant_lines st
                 ++ [ ("Hi " ++ p ++ ",")%string; EmptyString;
                      "Here is your split bill summary:"; EmptyString ])
                ++ item_lines
                ++ [ EmptyString;
                     ("Subtotal: " ++ fmt_num (round2 (subtotal_of st p)))%string;
                     ("Tax (your share): "
                      ++ fmt_num (tax_share_value (round2 (subtotal_of st p))
                                                  (spec_total_sub st) (tax st)))%string;
                     ("Total you should pay: "
                      ++ fmt_num (round2 (subtotal_of st p)
                                  + tax_share_value (round2 (subtotal_of st p))
                                                    (spec_total_sub st) (tax st)))%string;
                     EmptyString;
                     accounts_text st;
                     EmptyString;
                     "Thank you!" ])%list).
Proof.
  intros Hc. unfold build_email_body, email_tax_split.
  rewrite (person_total_subtotal_of st p Hc). simpl.
  destruct (item_lines_total st (row_of (shares st) p)) as [[l ->] _].
  { intros item q. now apply row_entries_in_catalog. }
  simpl. rewrite (included_subtotals_map st Hc). simpl.
  rewrite tax_share_expr_value. simpl. exists l. split; reflexivity.
Qed.

(** the entry of [all_totals] for an included participant *)
Lemma all_totals_entry st p :
  rows_in_catalog st -> wf (people st) ->
  In p (keys (people st)) -> has_share st p = true ->
  exists totals,
    all_totals st = Ok totals
    /\ get totals p
       = Some (round2 (round2 (subtotal_of st p)
                       + tax_share_value (round2 (subtotal_of st p))
                                         (spec_total_sub st) (tax st))).
Proof.
  intros Hcat Hwf Hp Hs.
  assert (Hinc : is_included st p = true) by (apply is_included_true; auto).
  destruct (all_totals_spec st Hcat)
    as [subs [totals [_ [Ht [Hsub [Hsum Hget]]]]]].
  exists totals. split; [exact Ht|].
  now rewrite Hget, Hsub, Hinc, (Hsum Hwf).
Qed.

(** C10 (one tax share at both call sites).  For a participant of the
    roster with a positive share of some item, [all_totals] and
    [build_email_body] both return, and one and the same tax share is the one
    added in the total that [all_totals] reports and the one printed in the
    e-mail: the participant's rounded subtotal over the sum of the rounded
    subtotals of the included participants, times the tax, or 0 when that
    sum is not positive. *)
Theorem email_tax_share_agrees :
  forall (st : state) (p : string),
    rows_in_catalog st ->
    wf (people st) ->
    In p (keys (people st)) ->
    (exists item, 0 < share_of st p item) ->
    exists t totals total item_lines body,
      person_total st p = Ok t
      /\ all_totals st = Ok totals
      /\ get totals p = Some total
      /\ email_item_lines st (row_of (shares st) p) = Ok item_lines
      /\ build_email_body st p = Ok body
      /\ let sub := round2 t in
         let total_sub := spec_total_sub st in
         let share :=
           if Qlt_bool 0 total_sub then sub / total_sub * tax st else 0 in
         total = round2 (sub + share)
         /\ body
            = join newline
                ((restaurant_lines st
                  ++ [ ("Hi " ++ p ++ ",")%string; EmptyString;
                       "Here is your split bill summary:"; EmptyString ])
                 ++ item_lines
                 ++ [ EmptyString;
                      ("Subtotal: " ++ fmt_num sub)%string;
                      ("Tax (your share): " ++ fmt_num share)%string;
                      ("Total you should pay: " ++ fmt_num (sub + share))%string;
                      EmptyString;
                      accounts_text st;
                      EmptyString;
                      "Thank you!" ])%list.
Proof.
  intros st p Hcat Hwf Hp [item Hpos].
  assert (Hs : has_share st p = true) by now apply has_share_of_positive with item.
  destruct (all_totals_entry st p Hcat Hwf Hp Hs) as [totals [Ht Hget]].
  destruct (build_email_body_spec st p Hcat) as [item_lines [Hl Hb]].
  exists (subtotal_of st p), totals. eexists. exists item_lines. eexists.
  split; [now apply person_total_subtotal_of|].
  split; [exact Ht|]. split; [exact Hget|]. split; [exact Hl|].
  split; [exact Hb|]. split; reflexivity.
Qed.

Lemma email_tax_share_agrees_witness :
  exists totals body,
    all_totals bill_state = Ok totals
    /\ get totals "Ann" = Some (round2 (10000 + 10000 / 15000 * 1500))
    /\ build_email_body bill_state "Ann" = Ok body
    /\ body
       = join newline
           [ "Hi Ann,"; EmptyString; "Here is your split bill summary:";
             EmptyString; "- Burger: 1 x 10,000 = 10,000"; EmptyString;
             "Subtotal: 10,000"; "Tax (your share): 1,000";
             "Total you should pay: 11,000"; EmptyString;
             "Please pay to the initiator (account details to be provided).";
             EmptyString; "Thank you!" ].
Proof.
  destruct (email_tax_share_agrees bill_state "Ann"
              (valid_rows _ bill_state_valid) (valid_people _ bill_state_valid))
    as [t [totals [total [item_lines [body [H1 [H2 [H3 [H4 [H5 [H6 H7]]]]]]]]]]].
  { vm_compute. tauto. }
  { exists "Burger". reflexivity. }
  exists totals, body.
  split; [exact H2|].
  vm_compute in H1. injection H1 as <-.
  vm_compute in H4. injection H4 as <-.
  split; [rewrite H3, H6; reflexivity|].
  split; [exact H5|].
  rewrite H7. reflexivity.
Defined.

(** X15.  The total in the settlement table is the "Total you should pay"
    of the participant's e-mail rounded to 2 decimals: the e-mail prints the
    unrounded sum of subtotal and tax share, the table the same sum rounded,
    and for a non-negative sum [fmt_num] writes both as the same text. *)
Theorem email_total_matches_table :
  forall (st : state) (p : string),
    rows_in_catalog st -> wf (people st) ->
    In p (keys (people st)) -> has_share st p = true ->
    exists t totals total body head,
      person_total st p = Ok t
      /\ all_totals st = Ok totals
      /\ get totals p = Some total
      /\ build_email_body st p = Ok body
      /\ let sub := round2 t in
         let v := sub + tax_share_value sub (spec_total_sub st) (tax st) in
         body
         = join newline
             (head
              ++ [ ("Total you should pay: " ++ fmt_num v)%string;
                   EmptyString; accounts_text st; EmptyString; "Thank you!" ])%list
         /\ total = round2 v
         /\ (0 <= v -> fmt_num v = fmt_num total).
Proof.
  intros st p Hcat Hwf Hp Hs.
  destruct (all_totals_entry st p Hcat Hwf Hp Hs) as [totals [Ht Hget]].
  destruct (build_email_body_spec st p Hcat) as [item_lines [Hl Hb]].
  exists (subtotal_of st p), totals. eexists. eexists.
  exists ((restaurant_lines st
           ++ [ ("Hi " ++ p ++ ",")%string; EmptyString;
                "Here is your split bill summary:"; EmptyString ])
          ++ item_lines
          ++ [ EmptyString;
               ("Subtotal: " ++ fmt_num (round2 (subtotal_of st p)))%string;
               ("Tax (your share): "
                ++ fmt_num (tax_share_value (round2 (subtotal_of st p))
                                            (spec_total_sub st) (tax st)))%string ])%list.
  split; [now apply person_total_subtotal_of|].
  split; [exact Ht|]. split; [exact Hget|]. split; [exact Hb|].
  cbv zeta. split.
  { f_equal. rewrite <- !app_assoc. reflexivity. }
  split; [reflexivity|].
  intros Hnn. symmetry. now apply fmt_num_round2.
Qed.

Lemma email_total_matches_table_witness :
  exists totals total body,
    all_totals tea_state = Ok totals
    /\ get totals "Ann" = Some total
    /\ build_email_body tea_state "Ann" = Ok body
    /\ total == 133 # 100
    /\ fmt_num total = "1.33"
    /\ fmt_num (1 + 1 / 3 * 1) = fmt_num total.
Proof.
  destruct (email_total_matches_table tea_state "Ann"
              (valid_rows _ tea_state_valid) (valid_people _ tea_state_valid))
    as [t [totals [total [body [head [H1 [H2 [H3 [H4 H5]]]]]]]]].
  { vm_compute. tauto. }
  { reflexivity. }
  exists totals, total, body.
  split; [exact H2|]. split; [exact H3|]. split; [exact H4|].
  vm_compute in H1. injection H1 as <-.
  cbv zeta in H5. destruct H5 as [_ [Htot Hfmt]].
  rewrite Htot. split; [reflexivity|]. split; [reflexivity|].
  reflexivity.
Defined.

(** ** Faults of the settlement functions *)

Lemma person_total_loop_fault st entries total e :
  person_total_loop st entries total = Raise e ->
  exists item q, In (item, q) entries /\ e = KeyError item
                 /\ get (items st) item = None.
Proof.
  revert total. induction entries as [|[item q] entries IH]; intros total; simpl.
  - discriminate.
  - destruct (get (items st) item) as [data|] eqn:E.
    + rewrite (unit_price_known _ _ _ E). simpl. intros H.
      destruct (IH _ H) as [i [q' [Hin He]]]. exists i, q'. split; [now right|auto].
    + rewrite (unit_price_unknown _ _ E). simpl. intros [= <-].
      exists item, q. split; [now left|auto].
Qed.

Lemma subtotals_loop_fault st ps acc e :
  subtotals_loop st ps acc = Raise e ->
  exists p item q, In p ps /\ In (item, q) (row_of (shares st) p)
                   /\ e = KeyError item /\ get (items st) item = None.
Proof.
  revert acc. induction ps as [|p ps IH]; intros acc; simpl; [discriminate|].
  destruct (has_share st p).
  - destruct (person_total st p) as [t|e0] eqn:E; simpl.
    + intros H. destruct (IH _ H) as [p' [i [q [Hin H']]]].
      exists p', i, q. split; [now right|exact H'].
    + intros [= <-]. unfold person_total in E.
      apply person_total_loop_fault in E as [i [q [Hin H']]].
      exists p, i, q. split; [now left|]. split; assumption.
  - intros H. destruct (IH _ H) as [p' [i [q [Hin H']]]].
    exists p', i, q. split; [now right|exact H'].
Qed.

(** X16.  The settlement divides by no zero, in any state: a zero
    quantity gives the unit price 0 and a sum of subtotals that is not
    positive gives the tax share 0.  The only fault of [unit_price],
    [person_total] and [all_totals] is the [KeyError] of an item that is
    missing from the catalog; for [all_totals] it is an item allocated to a
    participant of the roster. *)
Theorem settlement_faults_are_missing_items :
  forall st : state,
    (forall item e,
        unit_price st item = Raise e ->
        e = KeyError item /\ get (items st) item = None)
    /\ (forall p e,
           person_total st p = Raise e ->
           exists item q, In (item, q) (row_of (shares st) p)
                          /\ e = KeyError item /\ get (items st) item = None)
    /\ (forall e,
           all_totals st = Raise e ->
           exists p item q,
             In p (keys (people st)) /\ In (item, q) (row_of (shares st) p)
             /\ e = KeyError item /\ get (items st) item = None).
Proof.
  intros st. split; [|split].
  - intros item e H. destruct (get (items st) item) as [data|] eqn:E.
    + rewrite (unit_price_known _ _ _ E) in H. discriminate.
    + rewrite (unit_price_unknown _ _ E) in H. injection H as <-. auto.
  - intros p e H. unfold person_total in H.
    now apply person_total_loop_fault in H.
  - intros e. unfold all_totals, subtotals.
    destruct (subtotals_loop st (keys (people st)) []) as [subs|e0] eqn:E; simpl.
    + rewrite totals_loop_fold. discriminate.
    + intros [= <-]. now apply subtotals_loop_fault in E.
Qed.

Lemma settlement_faults_are_missing_items_witness :
  all_totals stray_state = Raise (KeyError "Soup")
  /\ exists p item q,
       In p (keys (people stray_state))
       /\ In (item, q) (row_of (shares stray_state) p)
       /\ KeyError "Soup" = KeyError item
       /\ get (items stray_state) item = None.
Proof.
  split; [reflexivity|].
  apply (proj2 (proj2 (settlement_faults_are_missing_items stray_state))).
  reflexivity.
Defined.

(** ** The breakdown of a person *)

Lemma person_breakdown_loop_map st entries :
  (forall item q, In (item, q) entries -> contains (items st) item = true) ->
  person_breakdown_loop st entries
  = Ok (map (fun e : string * Q =>
               {| line_item := fst e; line_qty := snd e;
                  line_unit := round2 (price_of st (fst e));
                  line_subtotal := round2 (snd e * price_of st (fst e)) |})
            (filter (fun e => Qlt_bool 0 (snd e)) entries)).
Proof.
  induction entries as [|[item q] entries IH]; intros H; [reflexivity|].
  cbn [person_breakdown_loop filter snd].
  rewrite IH by (intros; eapply H; right; eauto).
  assert (Hlt : Qlt_bool 0 q = negb (Qle_bool q 0)) by reflexivity.
  rewrite Hlt. destruct (Qle_bool q 0); cbn [negb]; [reflexivity|].
  assert (Hc : contains (items st) item = true) by (eapply H; now left).
  apply contains_true_get in Hc as [data Hget].
  assert (Hup : unit_price st item = Ok (price_of st item))
    by (unfold price_of; now rewrite (unit_price_known _ _ _ Hget)).
  rewrite Hup. reflexivity.
Qed.

(** X17.  [person_breakdown] returns one line for each item of which the
    person holds a positive share, and no other line: the line carries that
    share, the unit price rounded to cents and the rounded product.  Whoever
    appears in [all_totals] has a breakdown that is not empty. *)
Theorem breakdown_lists_positive_shares :
  forall (st : state) (p : string),
    well_formed st ->
    exists lines,
      person_breakdown st p = Ok lines
      /\ (forall l, In l lines ->
                    0 < line_qty l
                    /\ line_qty l = share_of st p (line_item l)
                    /\ unit_price st (line_item l) = Ok (price_of st (line_item l))
                    /\ line_unit l = round2 (price_of st (line_item l))
                    /\ line_subtotal l
                       = round2 (line_qty l * price_of st (line_item l)))
      /\ (forall item, 0 < share_of st p item ->
                       exists l, In l lines /\ line_item l = item)
      /\ (has_share st p = true -> lines <> []).
Proof.
  intros st p Hwf.
  pose proof (wfd_rows st Hwf) as Hcat.
  assert (Hrow : forall item q, In (item, q) (row_of (shares st) p) ->
                                contains (items st) item = true).
  { intros item q. now apply row_entries_in_catalog. }
  assert (Hwfrow : wf (row_of (shares st) p))
    by apply ledger_row_wf, (wfd_ledger st Hwf).
  eexists. split; [unfold person_breakdown; now apply person_breakdown_loop_map|].
  split; [|split].
  - intros l Hl. apply in_map_iff in Hl as [[item q] [<- Hin]]. simpl.
    apply filter_In in Hin as [Hin Hpos]. simpl in Hpos.
    apply Qlt_bool_iff in Hpos.
    split; [assumption|]. split.
    + unfold share_of, get_default. now rewrite (In_get _ _ _ Hwfrow Hin).
    + split; [|split; reflexivity].
      destruct (contains_true_get _ _ (Hrow item q Hin)) as [data Hget].
      unfold price_of. now rewrite (unit_price_known _ _ _ Hget).
  - intros item Hpos. unfold share_of, get_default in Hpos.
    destruct (get (row_of (shares st) p) item) as [q|] eqn:E; [|lra].
    apply get_In in E. eexists. split.
    + apply in_map. apply filter_In. split; [exact E|].
      simpl. now apply Qlt_bool_iff.
    + reflexivity.
  - intros Hs Hnil. apply map_eq_nil in Hnil.
    unfold has_share in Hs. apply pyany_true in Hs as [x [Hin Hx]].
    unfold values in Hin. apply in_map_iff in Hin as [[item q] [<- Hin]].
    simpl in Hx.
    assert (Hq : 0 <= q)
      by (eapply nonneg_row_of; [apply (wfd_nonneg st Hwf)|exact Hin]).
    assert (Hf : In (item, q) (filter (fun e => Qlt_bool 0 (snd e))
                                      (row_of (shares st) p))).
    { apply filter_In. split; [assumption|]. simpl. apply Qlt_bool_iff.
      destruct (Qlt_le_dec 0 q) as [H|H]; [assumption|].
      exfalso. apply Hx. lra. }
    rewrite Hnil in Hf. destruct Hf.
Qed.

Lemma breakdown_lists_positive_shares_witness :
  exists lines,
    person_breakdown bill_state "Ann" = Ok lines
    /\ lines <> []
    /\ exists l, In l lines /\ line_item l = "Burger".
Proof.
  destruct (breakdown_lists_positive_shares bill_state "Ann"
              (valid_well_formed _ bill_state_valid))
    as [lines [H1 [_ [H3 H4]]]].
  exists lines. split; [exact H1|]. split.
  - apply H4. reflexivity.
  - apply H3. reflexivity.
Defined.

(** ** Whole amounts are written without decimals *)

Lemma string_length_append a b :
  String.length (a ++ b) = (String.length a + String.length b)%nat.
Proof.
  induction a as [|c a IH]; simpl; [reflexivity | now rewrite IH].
Qed.

Lemma string_append_assoc a b c : ((a ++ b) ++ c = a ++ (b ++ c))%string.
Proof.
  induction a as [|x a IH]; simpl; [reflexivity | now rewrite IH].
Qed.

Lemma substring_whole b : substring 0 (String.length b) b = b.
Proof.
  induction b as [|c b IH]; simpl; [reflexivity | now rewrite IH].
Qed.

Lemma substring_prefix a b : substring 0 (String.length a) (a ++ b) = a.
Proof.
  induction a as [|c a IH]; simpl.
  - now destruct b.
  - now rewrite IH.
Qed.

Lemma substring_suffix a b :
  substring (String.length a) (String.length b) (a ++ b) = b.
Proof.
  induction a as [|c a IH]; simpl; [apply substring_whole | exact IH].
Qed.

Lemma endswith_append a b : endswith (a ++ b) b = true.
Proof.
  unfold endswith. rewrite string_length_append.
  replace (String.length a + String.length b - String.length b)%nat
    with (String.length a) by lia.
  rewrite substring_suffix, String.eqb_refl, andb_true_r.
  apply Nat.leb_le. lia.
Qed.

Lemma Qlt_bool_inject_Z n : Qlt_bool (inject_Z n) 0 = (n <? 0)%Z.
Proof.
  destruct (n <? 0)%Z eqn:E.
  - apply Qlt_bool_iff. apply Z.ltb_lt in E.
    change 0 with (inject_Z 0). now rewrite <- Zlt_Qlt.
  - apply Qlt_bool_false. apply Z.ltb_ge in E.
    change 0 with (inject_Z 0). now rewrite <- Zle_Qle.
Qed.

(** X18.  [fmt_num] writes a whole number without decimal point and
    decimals: an optional minus sign, then the digits of its absolute value
    with a comma before every group of three. *)
Theorem fmt_num_whole_number :
  forall n : Z,
    fmt_num (inject_Z n)
    = ((if (n <? 0)%Z then "-" else EmptyString)
       ++ with_commas (decimal_of_Z (Z.abs n)))%string.
Proof.
  intros n. unfold fmt_num, format_comma_2f.
  assert (Hr : round_half_even (inject_Z n * 100) = (n * 100)%Z).
  { rewrite (round_half_even_comp _ (inject_Z (n * 100))).
    - apply round_half_even_Z.
    - rewrite inject_Z_mult. reflexivity. }
  rewrite Hr, Qlt_bool_inject_Z.
  rewrite Z.abs_mul. change (Z.abs 100) with 100%Z.
  rewrite Z.div_mul by lia. rewrite Z.mod_mul by lia.
  change (two_digits 0) with "00".
  set (sign := if (n <? 0)%Z then "-" else EmptyString).
  set (body := with_commas (decimal_of_Z (Z.abs n))).
  change ("." ++ "00")%string with ".00".
  rewrite <- string_append_assoc.
  rewrite endswith_append, string_length_append.
  replace (String.length (sign ++ body) + String.length ".00" - 3)%nat
    with (String.length (sign ++ body)) by (simpl; lia).
  apply substring_prefix.
Qed.

(** * The core over binary64 numbers *)

Section Binary64.
Import PrimFloat SpecFloat FloatOps FloatAxioms.
Import Doubles.

(** ** Floats *)












(** ** The ledger *)

Lemma f64_row_of_get sh p :
row_of sh p = match get sh p with Some row => row | None => [] end.
Proof.
unfold row_of, shares_getitem. now destruct (get sh p).
Qed.

Lemma f64_shares_getitem_eta sh p :
shares_getitem sh p = (row_of sh p, snd (shares_getitem sh p)).
Proof.
unfold row_of. now destruct (shares_getitem sh p).
Qed.

Lemma f64_get_touched sh p :
get (snd (shares_getitem sh p)) p = Some (row_of sh p).
Proof.
rewrite f64_row_of_get. unfold shares_getitem.
destruct (get sh p) eqn:E; simpl; [assumption | apply get_set_same].
Qed.

Lemma f64_row_of_touched sh p p' :
row_of (snd (shares_getitem sh p)) p' = row_of sh p'.
Proof.
destruct (String.eqb_spec p p') as [<-|Hne].
- now rewrite (f64_row_of_get (snd _)), f64_get_touched.
- rewrite !f64_row_of_get. unfold shares_getitem.
  destruct (get sh p); simpl; [reflexivity|].
  now rewrite get_set_other.
Qed.

Lemma f64_store_share_touched st p item q :
store_share (with_shares st (snd (shares_getitem (shares st) p))) p item q
= with_shares st (set (shares st) p (set (row_of (shares st) p) item q)).
Proof.
unfold store_share. simpl shares.
rewrite (f64_shares_getitem_eta (snd _)), f64_row_of_touched.
unfold with_shares; simpl. f_equal.
unfold shares_getitem at 1 2.
destruct (get (shares st) p) eqn:E; simpl.
- now rewrite E.
- rewrite get_set_same. simpl. apply set_set_same.
Qed.

Lemma f64_share_of_stored st person item q p i :
share_of (with_shares st (set (shares st) person
                            (set (row_of (shares st) person) item q))) p i
= if (String.eqb person p && String.eqb item i)%bool then q else share_of st p i.
Proof.
unfold share_of. simpl. rewrite (f64_row_of_get (set _ _ _)), get_set.
destruct (String.eqb_spec person p) as [<-|Hne]; simpl.
- unfold get_default. rewrite get_set.
  now destruct (String.eqb item i).
- now rewrite <- f64_row_of_get.
Qed.


Lemma f64_assign_share_success st person item qty0 :
fst (assign_share st person item qty0) = Ok None ->
exists q data remaining,
  pyfloat qty0 = Ok q /\ leb q zero = false
  /\ person <> EmptyString /\ item <> EmptyString
  /\ get (items st) item = Some data
  /\ remaining_qty st item = Ok remaining
  /\ ltb remaining q = false
  /\ snd (assign_share st person item qty0)
     = with_shares st (set (shares st) person
                         (set (row_of (shares st) person) item
                              (add (share_of st person item) q))).
Proof.
unfold assign_share.
destruct person as [|c person]; [discriminate|].
destruct item as [|c' item]; [discriminate|].
cbn [truthy_str negb orb].
destruct (contains (items st) (String c' item)) eqn:Hitem; cbn [negb];
  [|discriminate].
destruct (pyfloat qty0) as [q|]; [|discriminate].
destruct (leb q zero) eqn:Hpos; [discriminate|].
apply contains_true_get in Hitem as [data Hget].
assert (Hrem : exists r, remaining_qty st (String c' item) = Ok r).
{ unfold remaining_qty, getitem. rewrite Hget. cbn [bind]. eauto. }
destruct Hrem as [r Hrem]. rewrite Hrem.
destruct (ltb _ q) eqn:Hcap; [discriminate|].
rewrite (f64_shares_getitem_eta (shares st)). simpl. intros _.
exists q, data, r. rewrite f64_store_share_touched.
repeat split; try assumption; discriminate.
Qed.

(** ** Settlement *)













(** ** Claims and further properties over binary64 *)

(** C1: the code at the failing input.  From the state with "Pizza" of
    quantity 2 and nothing assigned, [set_share("A","Pizza","nan")] succeeds:
    the text parses to NaN, and neither [qty_f < 0] nor [qty_f > available]
    holds of NaN.  The assigned quantities of "Pizza" then sum to NaN, the
    remaining quantity is NaN, and [set_share("B","Pizza","100")] succeeds as
    well: "B" holds 100 of an item of quantity 2, and the sum of the assigned
    quantities is not at most 2 + 1e-9.  [assign_share] accepts NaN in the
    same way. *)
Theorem nan_quantity_breaks_conservation :
  let r1 := set_share pizza_state "A" "Pizza" (PyStr "nan") in
  let r2 := set_share (snd r1) "B" "Pizza" (PyStr "100") in
  shares pizza_state = [("A", []); ("B", [])]
  /\ get (items pizza_state) "Pizza" = Some {| qty := 2; total_price := 20 |}
  /\ conserved_at pizza_state "Pizza" = true
  /\ fst r1 = Ok None
  /\ remaining_qty (snd r1) "Pizza" = Ok nan
  /\ fst r2 = Ok None
  /\ shares (snd r2) = [("A", [("Pizza", nan)]); ("B", [("Pizza", 100%float)])]
  /\ items (snd r2) = items pizza_state
  /\ ltb 2 (share_of (snd r2) "B" "Pizza") = true
  /\ used_qty (snd r2) "Pizza" = nan
  /\ conserved_at (snd r2) "Pizza" = false
  /\ fst (assign_share pizza_state "A" "Pizza" (PyStr "nan")) = Ok None.
Proof.
  vm_compute. repeat split.
Qed.






(** X8.  A successful [assign_share] adds the parsed quantity to the
    person's share of the item and changes no other share, no item, no
    roster entry and not the tax.  That it succeeded says that neither
    comparison of the code held: the quantity is not 0 or below, and it is
    not above [remaining_qty] of the item. *)
Theorem assign_share_effect :
  forall (st : state) (person item : string) (qty0 : pyval),
    fst (assign_share st person item qty0) = Ok None ->
    let st' := snd (assign_share st person item qty0) in
    exists q data remaining,
      pyfloat qty0 = Ok q
      /\ leb q zero = false
      /\ get (items st) item = Some data
      /\ remaining_qty st item = Ok remaining
      /\ ltb remaining q = false
      /\ share_of st' person item = add (share_of st person item) q
      /\ (forall p i, p <> person \/ i <> item ->
                      share_of st' p i = share_of st p i)
      /\ items st' = items st /\ people st' = people st /\ tax st' = tax st.
Proof.
  intros st person item qty0 Hok st'. subst st'.
  destruct (f64_assign_share_success st person item qty0 Hok)
    as [q [data [r [Hq [Hpos [_ [_ [Hget [Hrem [Hfit ->]]]]]]]]]].
  exists q, data, r.
  split; [assumption|]. split; [assumption|]. split; [assumption|].
  split; [assumption|]. split; [assumption|]. split.
  { rewrite f64_share_of_stored, !String.eqb_refl. reflexivity. }
  split.
  { intros p i Hne. rewrite f64_share_of_stored.
    destruct (String.eqb_spec person p) as [<-|]; [|reflexivity].
    destruct (String.eqb_spec item i) as [<-|]; [|reflexivity].
    destruct Hne; congruence. }
  repeat split.
Qed.

Lemma assign_share_effect_witness :
  exists q data,
    pyfloat (PyStr "0.5") = Ok q
    /\ get (items bill_state) "Fries" = Some data
    /\ share_of (snd (assign_share
                        (snd (set_share bill_state "Bo" "Fries" (PyStr "0.5")))
                        "Ann" "Fries" (PyStr "0.5")))
                "Ann" "Fries"
       = add (share_of (snd (set_share bill_state "Bo" "Fries" (PyStr "0.5")))
                       "Ann" "Fries") q.
Proof.
  destruct (assign_share_effect
              (snd (set_share bill_state "Bo" "Fries" (PyStr "0.5")))
              "Ann" "Fries" (PyStr "0.5") eq_refl)
    as [q [data [r [H1 [_ [H3 [_ [_ [H5 _]]]]]]]]].
  exists q, data. auto.
Defined.

End Binary64.
